(** * The typed allocation facade of [myalloc.h]

    A shallow embedding of the four macros [MALLOC], [CALLOC], [REALLOC] and
    [FREE] of [C Code/withCubicReg/myalloc.h], in both of their variants (with
    and without [MALLOCDEBUG]), together with the properties of them that the
    specification states.

    The macros call four things that are not theirs: the platform allocator
    ([malloc], [calloc], [realloc], [free]), [printf] and [exit].  The
    allocator is a parameter of the development (a record of functions on
    the heap); [printf] is a small interpreter of the conversions the header
    uses; [exit] ends the run with a status. *)

From Stdlib Require Import ZArith Lia Ascii DecimalString.
From stdpp Require Import base gmap strings list.

Open Scope Z_scope.

(** ** Text: what [printf] writes *)

Module Text.

Definition newline : ascii := "010"%char.
Definition percent : ascii := "%"%char.

(** The one-character string written for the escape [\n]. *)
Definition NL : string := String newline EmptyString.

(** [occurs c s]: the character [c] occurs in [s]. *)
Fixpoint occurs (c : ascii) (s : string) : bool :=
  match s with
  | EmptyString => false
  | String a s' => if decide (a = c) then true else occurs c s'
  end.

(** [s] occurs somewhere in [t]. *)
Definition contains (t s : string) : Prop :=
  exists pre post, t = pre +:+ s +:+ post.

Fixpoint spaces (n : nat) : string :=
  match n with
  | O => EmptyString
  | S n' => String " "%char (spaces n')
  end.

(** A field of minimum width [width]: [%12s] pads on the left, [%-6d] on the
    right. *)
Definition pad (minus : bool) (width : nat) (s : string) : string :=
  let fill := spaces (width - String.length s) in
  if minus then s +:+ fill else fill +:+ s.

(** [%d]: the decimal digits of an [int], with a leading [-] below zero. *)
Definition dec (z : Z) : string := NilZero.string_of_int (Z.to_int z).

Definition digit (c : ascii) : option nat :=
  let n := nat_of_ascii c in
  if decide (48 <= n <= 57)%nat then Some (n - 48)%nat else None.

Inductive printf_arg :=
| ArgS (s : string)
| ArgD (z : Z).

(** Where the interpreter is in the format: in literal text, or inside a
    conversion after its [%], with the flag and the width read so far. *)
Inductive conv :=
| Lit
| Spec (minus : bool) (width : nat).

(** The text [printf fmt args] writes; [None] where the format is not one
    the C library defines for these arguments (a conversion other than [s]
    and [d], a missing or ill-typed argument, a format that ends inside a
    conversion). *)
Fixpoint format (st : conv) (fmt : string) (args : list printf_arg)
  : option string :=
  match fmt with
  | EmptyString =>
      match st with
      | Lit => Some EmptyString
      | Spec _ _ => None
      end
  | String c rest =>
      match st with
      | Lit =>
          if decide (c = percent) then format (Spec false 0) rest args
          else String c <$> format Lit rest args
      | Spec m w =>
          match digit c with
          | Some d => format (Spec m (10 * w + d)) rest args
          | None =>
              if decide (c = "-"%char) then
                match w with
                | O => format (Spec true O) rest args
                | S _ => None
                end
              else if decide (c = "s"%char) then
                match args with
                | ArgS s :: args' =>
                    String.append (pad m w s) <$> format Lit rest args'
                | _ => None
                end
              else if decide (c = "d"%char) then
                match args with
                | ArgD z :: args' =>
                    String.append (pad m w (dec z)) <$> format Lit rest args'
                | _ => None
                end
              else None
          end
      end
  end.

End Text.

Import Text.

(** ** Element types, the heap and the platform allocator *)

(** What the macros use of their [type] argument: its spelling ([#type]),
    its size and the value [0] converted to it.  A C object is at least one
    byte wide. *)
Record ctype (V : Type) := CType {
  type_name : string;
  sizeof : positive;
  zero : V;
}.
Arguments CType {V} _ _ _.
Arguments type_name {V} _.
Arguments sizeof {V} _.
Arguments zero {V} _.

(** A pointer is [NULL] or the address of a region; a region is the list of
    the elements it holds. *)
Definition addr := positive.
Abbreviation ptr := (option addr).
Abbreviation NULL := (@None addr).
Abbreviation heap_of V := (gmap addr (list V)).

Definition is_null (p : ptr) : bool :=
  match p with
  | None => true
  | Some _ => false
  end.

(** The platform: the width of [size_t] and the four allocator entry points,
    which act on the heap and answer with a pointer.  [plat_free] is only
    ever called on a pointer that is not [NULL]. *)
Record Platform (V : Type) := {
  size_bits : positive;
  plat_malloc : Z -> heap_of V -> ptr * heap_of V;
  plat_calloc : Z -> Z -> heap_of V -> ptr * heap_of V;
  plat_realloc : ptr -> Z -> heap_of V -> ptr * heap_of V;
  plat_free : addr -> heap_of V -> heap_of V;
}.
Arguments size_bits {V} _.
Arguments plat_malloc {V} _ _ _.
Arguments plat_calloc {V} _ _ _ _.
Arguments plat_realloc {V} _ _ _ _.
Arguments plat_free {V} _ _ _.

(** ** Runs: state, events and outcomes *)

(** The two [printf] sites of a macro: the trace line of the [MALLOCDEBUG]
    variant and the message of the failure branch. *)
Inductive line_kind := TraceLine | FailureLine.

(** What a macro does that can be seen from outside, in the order it does
    it. *)
Inductive event :=
| EvPrintf (k : line_kind) (text : string)
| EvMalloc (size : Z)
| EvCalloc (nmemb size : Z)
| EvRealloc (p : ptr) (size : Z)
| EvFree (a : addr)
| EvAssign (name : string) (p : ptr)
| EvExit (status : Z).

(** The heap, the pointer variables (a macro's [name] argument is both the
    variable and, through [#name], its spelling) and the events so far. *)
Record state (V : Type) := State {
  heap : heap_of V;
  vars : gmap string ptr;
  log : list event;
}.
Arguments State {V} _ _ _.
Arguments heap {V} _.
Arguments vars {V} _.
Arguments log {V} _.

(** How a run ends: it reaches the end of the macro, it calls [exit], it does
    something C leaves undefined, or the loop bound of the model is used
    up. *)
Inductive result (V A : Type) :=
| Normal (a : A) (s : state V)
| Exited (status : Z) (s : state V)
| Undefined (s : state V)
| OutOfFuel.
Arguments Normal {V A} _ _.
Arguments Exited {V A} _ _.
Arguments Undefined {V A} _.
Arguments OutOfFuel {V A}.

Definition M (V A : Type) : Type := state V -> result V A.

Definition ret {V A} (a : A) : M V A := fun s => Normal a s.

Definition bind {V A B} (m : M V A) (k : A -> M V B) : M V B := fun s =>
  match m s with
  | Normal a s' => k a s'
  | Exited c s' => Exited c s'
  | Undefined s' => Undefined s'
  | OutOfFuel => OutOfFuel
  end.

Declare Scope run_scope.
Delimit Scope run_scope with run.
Notation "x <- m ;; k" := (bind m (fun x => k))
  (at level 100, m at next level, right associativity) : run_scope.
Notation "m ;;; k" := (bind m (fun _ => k))
  (at level 100, right associativity) : run_scope.
Open Scope run_scope.

Definition emit {V} (e : event) (s : state V) : state V :=
  State (heap s) (vars s) (log s ++ [e]).

Definition state_of {V A} (r : result V A) : option (state V) :=
  match r with
  | Normal _ s | Exited _ s | Undefined s => Some s
  | OutOfFuel => None
  end.

(** Kinds of events, to count them in a run. *)
Definition is_trace (e : event) : bool :=
  match e with
  | EvPrintf TraceLine _ => true
  | _ => false
  end.

Definition is_failure (e : event) : bool :=
  match e with
  | EvPrintf FailureLine _ => true
  | _ => false
  end.

Definition is_exit (e : event) : bool :=
  match e with
  | EvExit _ => true
  | _ => false
  end.

Definition is_free (e : event) : bool :=
  match e with
  | EvFree _ => true
  | _ => false
  end.

Definition count (f : event -> bool) (l : list event) : nat :=
  length (filter (fun e => Is_true (f e)) l).

(** ** The statements and calls the macros are made of *)

Section Primitives.
Context {V : Type} (P : Platform V).

(** [size_t] arithmetic: values are reduced modulo [2 ^ size_bits]. *)
Definition SIZE_MODULUS : Z := 2 ^ Z.pos (size_bits P).

Definition to_size_t (z : Z) : Z := z mod SIZE_MODULUS.

(** [(len)*sizeof(type)]: [len] is an [int] (the macros print it with [%d]
    and [CALLOC] compares it with an [int]), [sizeof] yields a [size_t]; so
    [len] is converted to [size_t] and the product is taken in [size_t]. *)
Definition size_mul (len : Z) (size : positive) : Z :=
  to_size_t (to_size_t len * Z.pos size).

Definition printf (k : line_kind) (fmt : string) (args : list printf_arg)
  : M V unit := fun s =>
  match format Lit fmt args with
  | Some text => Normal tt (emit (EvPrintf k text) s)
  | None => Undefined s
  end.

Definition exit {A} (status : Z) : M V A := fun s =>
  Exited status (emit (EvExit status) s).

Definition malloc (size : Z) : M V ptr := fun s =>
  let '(p, h) := plat_malloc P size (heap s) in
  Normal p (State h (vars s) (log s ++ [EvMalloc size])).

Definition calloc (nmemb size : Z) : M V ptr := fun s =>
  let '(p, h) := plat_calloc P nmemb size (heap s) in
  Normal p (State h (vars s) (log s ++ [EvCalloc nmemb size])).

Definition realloc (p : ptr) (size : Z) : M V ptr := fun s =>
  let '(q, h) := plat_realloc P p size (heap s) in
  Normal q (State h (vars s) (log s ++ [EvRealloc p size])).

Definition free (a : addr) : M V unit := fun s =>
  Normal tt (State (plat_free P a (heap s)) (vars s) (log s ++ [EvFree a])).

(** [(name) = p] *)
Definition assign (name : string) (p : ptr) : M V unit := fun s =>
  Normal tt (State (heap s) (<[name := p]> (vars s))
                   (log s ++ [EvAssign name p])).

(** The value of [(name)]; a variable that was never given a value has
    none. *)
Definition read (name : string) : M V ptr := fun s =>
  match vars s !! name with
  | Some p => Normal p s
  | None => Undefined s
  end.

(** [name[i] = v]: defined only inside the region [name] points to. *)
Definition store_elem (name : string) (i : Z) (v : V) : M V unit := fun s =>
  match vars s !! name with
  | Some (Some a) =>
      match heap s !! a with
      | Some blk =>
          if decide (0 <= i < Z.of_nat (length blk)) then
            Normal tt (State (<[a := <[Z.to_nat i := v]> blk]> (heap s))
                             (vars s) (log s))
          else Undefined s
      | None => Undefined s
      end
  | _ => Undefined s
  end.

(** [for (...; i<(len); i++) name[i] = 0;] from the value [i] of the
    counter on.  The counter is an [int] that stays below [len], an [int]
    too, so [i++] never overflows.  [fuel] bounds the number of iterations of
    the model; [zero_loop_never_starved] shows the macro gives enough. *)
Fixpoint zero_loop (fuel : nat) (name : string) (i len : Z) (z : V)
  : M V unit :=
  if i <? len then
    match fuel with
    | O => fun _ => OutOfFuel
    | S fuel' =>
        store_elem name i z ;;;
        zero_loop fuel' name (i + 1) len z
    end
  else ret tt.

(** What can be read through a handle. *)
Definition region (s : state V) (name : string) : option (list V) :=
  match vars s !! name with
  | Some (Some a) => heap s !! a
  | Some None => Some []
  | None => None
  end.

(** [name] is a handle that owns [n] elements: it points to a region of
    [n] elements, or it is empty and [n] is [0]. *)
Definition owns (s : state V) (name : string) (n : Z) : Prop :=
  exists blk, region s name = Some blk /\ Z.of_nat (length blk) = n.

Definition handle_is (s : state V) (name : string) (p : ptr) : Prop :=
  vars s !! name = Some p.

End Primitives.

(** [#define MY_MALLOC_THRESH 1] *)
Definition MY_MALLOC_THRESH : Z := 1.

(** ** The macros *)

(** *** With [MALLOCDEBUG] defined *)

Module Debug.
Section Macros.
Context {V : Type} (T : ctype V) (P : Platform V).

Definition MALLOC (name len_s : string) (len : Z) : M V unit :=
  (if size_mul P len (sizeof T) >=? to_size_t P MY_MALLOC_THRESH then
     printf TraceLine
       ("MALLOC(  %12s, %12s=%-6d," +:+ type_name T +:+ " )" +:+ NL)
       [ArgS name; ArgS len_s; ArgD len]
   else ret tt) ;;;
  p <- malloc P (size_mul P len (sizeof T)) ;;
  assign name p ;;;
  if is_null p && (len >? 0) then
    printf FailureLine
      ("MALLOC(" +:+ name +:+ "," +:+ len_s +:+ "=%d," +:+ type_name T +:+ ")"
       +:+ ": cannot allocate space")
      [ArgD len] ;;;
    exit 1
  else ret tt.

(** [CALLOC(name,len,type)] with [MALLOCDEBUG].  The block of the macro
    opens with [int i;]: the threshold test, the arguments of both
    [printf], the call of [calloc], the guard and the loop all read
    [(len)], and the assignment and the loop write through [(name)], in the
    scope of that counter.  This is the macro at a handle and a count whose
    texts do not mention [i] ([free_of_i], below): [len] is then the one
    value every occurrence of [(len)] has, the test of the loop included,
    and [name] the one variable written. *)
Definition CALLOC (name len_s : string) (len : Z) : M V unit :=
  (if size_mul P len (sizeof T) >=? to_size_t P MY_MALLOC_THRESH then
     printf TraceLine
       ("CALLOC(  %12s, %12s=%-6d," +:+ type_name T +:+ " )" +:+ NL)
       [ArgS name; ArgS len_s; ArgD len]
   else ret tt) ;;;
  p <- calloc P (to_size_t P len) (Z.pos (sizeof T)) ;;
  assign name p ;;;
  (if is_null p && (len >? 0) then
     printf FailureLine
       ("CALLOC(" +:+ name +:+ "," +:+ len_s +:+ "=%d," +:+ type_name T
        +:+ ")" +:+ ": cannot allocate space")
       [ArgD len] ;;;
     exit 1
   else ret tt) ;;;
  zero_loop (Z.to_nat len) name 0 len (zero T).

Definition REALLOC (name len_s : string) (len : Z) : M V unit :=
  (if size_mul P len (sizeof T) >=? to_size_t P MY_MALLOC_THRESH then
     printf TraceLine
       ("REALLOC( %12s, %12s=%-6d," +:+ type_name T +:+ " )" +:+ NL)
       [ArgS name; ArgS len_s; ArgD len]
   else ret tt) ;;;
  old <- read name ;;
  p <- realloc P old (size_mul P len (sizeof T)) ;;
  assign name p ;;;
  if is_null p && (len >? 0) then
    printf FailureLine
      ("REALLOC(" +:+ name +:+ "," +:+ len_s +:+ "=%d," +:+ type_name T
       +:+ ")" +:+ ": cannot reallocate space")
      [ArgD len] ;;;
    exit 11
  else ret tt.

Definition FREE (name : string) : M V unit :=
  printf TraceLine ("FREE(    %12s )" +:+ NL) [ArgS name] ;;;
  p <- read name ;;
  (match p with
   | Some a => free P a
   | None => ret tt
   end) ;;;
  assign name NULL.

End Macros.
End Debug.

(** *** Without [MALLOCDEBUG] *)

Module Plain.
Section Macros.
Context {V : Type} (T : ctype V) (P : Platform V).

Definition MALLOC (name len_s : string) (len : Z) : M V unit :=
  p <- malloc P (size_mul P len (sizeof T)) ;;
  assign name p ;;;
  if is_null p && (len >? 0) then
    printf FailureLine
      ("MALLOC(" +:+ name +:+ "," +:+ len_s +:+ "=%d," +:+ type_name T +:+ ")"
       +:+ ": cannot allocate space")
      [ArgD len] ;;;
    exit 1
  else ret tt.

(** [CALLOC(name,len,type)] without [MALLOCDEBUG].  The block of the macro
    opens with [int i;]: the call of [calloc], the guard, the argument of
    [printf] and the test [i<(len)] of the loop all read [(len)], and the
    assignment and [name[i] = 0] go through [(name)], in the scope of that
    counter.  This is the macro at a handle and a count whose texts do not
    mention [i] ([free_of_i], below): [len] is then the one value every
    occurrence of [(len)] has, and [name] the one variable written. *)
Definition CALLOC (name len_s : string) (len : Z) : M V unit :=
  p <- calloc P (to_size_t P len) (Z.pos (sizeof T)) ;;
  assign name p ;;;
  (if is_null p && (len >? 0) then
     printf FailureLine
       ("CALLOC(" +:+ name +:+ "," +:+ len_s +:+ "=%d," +:+ type_name T
        +:+ ")" +:+ ": cannot allocate space")
       [ArgD len] ;;;
     exit 1
   else ret tt) ;;;
  zero_loop (Z.to_nat len) name 0 len (zero T).

Definition REALLOC (name len_s : string) (len : Z) : M V unit :=
  old <- read name ;;
  p <- realloc P old (size_mul P len (sizeof T)) ;;
  assign name p ;;;
  if is_null p && (len >? 0) then
    printf FailureLine
      ("REALLOC(" +:+ name +:+ "," +:+ len_s +:+ "=%d," +:+ type_name T
       +:+ ")" +:+ ": cannot reallocate space")
      [ArgD len] ;;;
    exit 1
  else ret tt.

Definition FREE (name : string) : M V unit :=
  p <- read name ;;
  (match p with
   | Some a => free P a
   | None => ret tt
   end) ;;;
  assign name NULL.

End Macros.
End Plain.

(** *** The facade: four operations in two build modes *)

Inductive mode := Silent | Tracing.
Inductive operation := ALLOCATE | ZERO_ALLOCATE | RESIZE.

Section Facade.
Context {V : Type} (T : ctype V) (P : Platform V).

Definition perform (b : mode) (o : operation)
  : string -> string -> Z -> M V unit :=
  match b, o with
  | Silent, ALLOCATE => Plain.MALLOC T P
  | Silent, ZERO_ALLOCATE => Plain.CALLOC T P
  | Silent, RESIZE => Plain.REALLOC T P
  | Tracing, ALLOCATE => Debug.MALLOC T P
  | Tracing, ZERO_ALLOCATE => Debug.CALLOC T P
  | Tracing, RESIZE => Debug.REALLOC T P
  end.

Definition RELEASE (b : mode) : string -> M V unit :=
  match b with
  | Silent => Plain.FREE P
  | Tracing => Debug.FREE P
  end.

(** The events a run adds to those of the state it starts from. *)
Definition added {A} (s : state V) (r : result V A) : list event :=
  match state_of r with
  | Some s' => drop (length (log s)) (log s')
  | None => []
  end.

End Facade.

(** ** What the C standard promises of the allocator *)

Section Contract.
Context {V : Type} (T : ctype V) (P : Platform V).

(** The number of elements of type [T] in a region of [bytes] bytes. *)
Definition elems (bytes : Z) : Z := bytes / Z.pos (sizeof T).

(** The region a pointer leads to in a heap; [NULL] leads to nothing. *)
Definition pointee (h : heap_of V) (p : ptr) : option (list V) :=
  match p with
  | Some a => h !! a
  | None => Some []
  end.

(** For sizes that [size_t] can hold (none is negative): a pointer that is
    not [NULL] is the address of a region of the size asked for ([calloc]
    takes the product of its arguments without wrapping), [realloc] keeps
    the contents up to the lesser of the old and new sizes, and a [realloc]
    that fails for a size other than [0] leaves the heap as it was.
    Nothing is promised of the contents of fresh memory, not even of
    [calloc]'s. *)
Record conforming : Prop := {
  malloc_region : forall size h a h',
    0 <= size ->
    plat_malloc P size h = (Some a, h') ->
    exists blk, h' !! a = Some blk /\ Z.of_nat (length blk) = elems size;
  calloc_region : forall nmemb size h a h',
    0 <= nmemb -> 0 <= size ->
    plat_calloc P nmemb size h = (Some a, h') ->
    exists blk,
      h' !! a = Some blk /\ Z.of_nat (length blk) = elems (nmemb * size);
  realloc_region : forall p size h a h',
    0 <= size ->
    plat_realloc P p size h = (Some a, h') ->
    exists blk,
      h' !! a = Some blk /\ Z.of_nat (length blk) = elems size /\
      forall old, pointee h p = Some old ->
        take (Nat.min (length blk) (length old)) blk
        = take (Nat.min (length blk) (length old)) old;
  realloc_failed : forall p size h h',
    plat_realloc P p size h = (None, h') -> 0 < size -> h' = h;
}.

End Contract.

(** ** Two platforms and two element types to run the macros on *)

Module Arena.
Section Arena.
Context {V : Type}.
Variables (bits : positive) (elem_size : positive) (capacity : Z)
          (garbage : V).

(** A region of [bytes] bytes as it comes from the arena: filled with
    [garbage]. *)
Definition raw (bytes : Z) : list V :=
  replicate (Z.to_nat (bytes / Z.pos elem_size)) garbage.

Definition arena_malloc (size : Z) (h : heap_of V) : ptr * heap_of V :=
  if decide (size <= capacity) then
    let a := fresh (dom h) in (Some a, <[a := raw size]> h)
  else (NULL, h).

(** This [calloc] does not clear what it hands out. *)
Definition arena_calloc (nmemb size : Z) (h : heap_of V) : ptr * heap_of V :=
  arena_malloc (nmemb * size) h.

(** Resizes in place. *)
Definition arena_realloc (p : ptr) (size : Z) (h : heap_of V)
  : ptr * heap_of V :=
  match p with
  | None => arena_malloc size h
  | Some a =>
      if decide (size <= capacity) then
        let old := default [] (h !! a) in
        let n := Z.to_nat (size / Z.pos elem_size) in
        (Some a, <[a := take n old ++ replicate (n - length old) garbage]> h)
      else (NULL, h)
  end.

Definition arena_free (a : addr) (h : heap_of V) : heap_of V := delete a h.

Definition platform : Platform V :=
  {| size_bits := bits;
     plat_malloc := arena_malloc;
     plat_calloc := arena_calloc;
     plat_realloc := arena_realloc;
     plat_free := arena_free |}.

(** A platform with no memory left: every request fails. *)
Definition exhausted : Platform V :=
  {| size_bits := bits;
     plat_malloc := fun _ h => (NULL, h);
     plat_calloc := fun _ _ h => (NULL, h);
     plat_realloc := fun _ _ h => (NULL, h);
     plat_free := arena_free |}.

End Arena.
End Arena.

(** [int] of 32 bits and [double], the latter as the 64 bits of its
    representation ([0.0] is all bits clear). *)
Definition int : ctype Z := CType "int" 4 0.
Definition double : ctype Z := CType "double" 8 0.

(** A 64-bit and a 32-bit platform whose fresh memory holds [170] in every
    element, with 4096 bytes to give out. *)
Definition lp64_int : Platform Z := Arena.platform 64 4 4096 170.
Definition lp64_double : Platform Z := Arena.platform 64 8 4096 170.
Definition ilp32_int : Platform Z := Arena.platform 32 4 4096 170.
Definition lp64_none : Platform Z := Arena.exhausted 64.

Definition start : state Z := State ∅ ∅ [].

(** A state in which [y] owns the three elements [7, 8, 9]. *)
Definition with_y : state Z :=
  State {[ 1%positive := [7; 8; 9] ]} {[ "y" := Some 1%positive ]} [].

(** ** The texts of the arguments *)

(** A macro reads its [len] argument several times (in the threshold test,
    as an argument of [printf], in the call of the allocator, in the guard
    of the failure branch and, in [CALLOC], in the test of the loop) and its
    [name] argument more than once too.  The embedding takes the count as
    one value, [len], and the handle as one variable, [name]: it is the
    macro at arguments without side effects.

    [CALLOC] moreover declares [int i;] at the head of its block, so its
    arguments are evaluated where [i] is the macro's own counter.  A [len]
    or a [name] whose text mentions [i] therefore reads that counter before
    it has a value, which C leaves undefined, and reads it anew in
    [i<(len)] and [name[i]]: [CALLOC(x,i,T)] tests [i<(i)] and
    [CALLOC(x,i+1,T)] tests [i<(i+1)].  [Debug.CALLOC] and [Plain.CALLOC]
    are the macro at arguments whose texts do not mention [i]; the theorems
    that need it say so, with [free_of_i] and [hygienic]. *)

(** The characters of an identifier: letters, digits and [_]. *)
Definition ident_char (c : ascii) : bool :=
  let n := nat_of_ascii c in
  bool_decide ((48 <= n <= 57 \/ 65 <= n <= 90 \/ 97 <= n <= 122 \/ n = 95)%nat).

(** [text] holds the identifier [id] as a word of its own: a longest run of
    identifier characters of [text] is [id].  [cur] is the run read so
    far. *)
Fixpoint mentions_from (id cur text : string) : bool :=
  match text with
  | EmptyString => bool_decide (cur = id)
  | String c rest =>
      if ident_char c then mentions_from id (cur +:+ String c EmptyString) rest
      else bool_decide (cur = id) || mentions_from id EmptyString rest
  end.

Definition mentions (id text : string) : bool :=
  mentions_from id EmptyString text.

(** The text does not name [CALLOC]'s counter. *)
Definition free_of_i (text : string) : Prop := mentions "i" text = false.

(** The arguments of a call as the embedding takes them: those of [CALLOC]
    do not name its counter. *)
Definition hygienic (o : operation) (name len_s : string) : Prop :=
  o = ZERO_ALLOCATE -> free_of_i name /\ free_of_i len_s.

(** ** The shape of a run of [perform] *)

Definition no_percent (s : string) : Prop := occurs percent s = false.
Definition no_newline (s : string) : Prop := occurs newline s = false.

(** A line: some text without a newline, then one newline. *)
Definition single_line (text : string) : Prop :=
  exists body, text = body +:+ NL /\ no_newline body.

Section Shape.
Context {V : Type} (T : ctype V) (P : Platform V).

(** The head of each trace format, up to its first conversion. *)
Definition label (o : operation) : string :=
  match o with
  | ALLOCATE => "MALLOC(  "
  | ZERO_ALLOCATE => "CALLOC(  "
  | RESIZE => "REALLOC( "
  end.

Definition macro_name (o : operation) : string :=
  match o with
  | ALLOCATE => "MALLOC"
  | ZERO_ALLOCATE => "CALLOC"
  | RESIZE => "REALLOC"
  end.

Definition complaint (o : operation) : string :=
  match o with
  | ALLOCATE | ZERO_ALLOCATE => ": cannot allocate space"
  | RESIZE => ": cannot reallocate space"
  end.

(** What the trace format writes for its three arguments. *)
Definition trace_body (head name len_s : string) (len : Z) : string :=
  head +:+ pad false 12 name +:+ ", " +:+ pad false 12 len_s +:+ "="
  +:+ pad true 6 (dec len) +:+ "," +:+ type_name T +:+ " )".

Definition trace_line (o : operation) (name len_s : string) (len : Z)
  : string :=
  trace_body (label o) name len_s len +:+ NL.

(** What the failure format writes. *)
Definition failure_message (o : operation) (name len_s : string) (len : Z)
  : string :=
  (macro_name o +:+ "(") +:+ name +:+ "," +:+ len_s +:+ "=" +:+ dec len
  +:+ "," +:+ type_name T +:+ ")" +:+ complaint o.

Definition release_line (name : string) : string :=
  "FREE(    " +:+ pad false 12 name +:+ " )" +:+ NL.

(** The test that guards the trace line. *)
Definition threshold_met (len : Z) : bool :=
  size_mul P len (sizeof T) >=? to_size_t P MY_MALLOC_THRESH.

Definition trace_events (b : mode) (o : operation) (name len_s : string)
  (len : Z) : list event :=
  match b with
  | Tracing =>
      if threshold_met len then [EvPrintf TraceLine (trace_line o name len_s len)]
      else []
  | Silent => []
  end.

(** The call an operation makes, what the platform answers in state [s],
    and the event of the call. *)
Definition old_handle (s : state V) (name : string) : ptr :=
  default NULL (vars s !! name).

Definition request (o : operation) (name : string) (len : Z) (s : state V)
  : ptr * heap_of V :=
  match o with
  | ALLOCATE => plat_malloc P (size_mul P len (sizeof T)) (heap s)
  | ZERO_ALLOCATE =>
      plat_calloc P (to_size_t P len) (Z.pos (sizeof T)) (heap s)
  | RESIZE =>
      plat_realloc P (old_handle s name) (size_mul P len (sizeof T)) (heap s)
  end.

Definition request_event (o : operation) (name : string) (len : Z)
  (s : state V) : event :=
  match o with
  | ALLOCATE => EvMalloc (size_mul P len (sizeof T))
  | ZERO_ALLOCATE => EvCalloc (to_size_t P len) (Z.pos (sizeof T))
  | RESIZE => EvRealloc (old_handle s name) (size_mul P len (sizeof T))
  end.

Definition is_request (e : event) : bool :=
  match e with
  | EvMalloc _ | EvCalloc _ _ | EvRealloc _ _ => true
  | _ => false
  end.

(** The state once the allocator's answer has been assigned to [name]. *)
Definition after_request (b : mode) (o : operation) (name len_s : string)
  (len : Z) (s : state V) : state V :=
  let '(p, h) := request o name len s in
  State h (<[name := p]> (vars s))
        (log s ++ trace_events b o name len_s len
               ++ [request_event o name len s; EvAssign name p]).

Definition exit_status (b : mode) (o : operation) : Z :=
  match b, o with
  | Tracing, RESIZE => 11
  | _, _ => 1
  end.

(** The state in which a failed request leaves the process. *)
Definition after_failure (b : mode) (o : operation) (name len_s : string)
  (len : Z) (s : state V) : state V :=
  let s1 := after_request b o name len_s len s in
  State (heap s1) (vars s1)
        (log s1 ++ [EvPrintf FailureLine (failure_message o name len_s len);
                    EvExit (exit_status b o)]).

(** What is left to do after the failure branch was not taken. *)
Definition finish (o : operation) (name : string) (len : Z) : M V unit :=
  match o with
  | ZERO_ALLOCATE => zero_loop (Z.to_nat len) name 0 len (zero T)
  | _ => ret tt
  end.

(** The request fails: the allocator answers [NULL] to a request for more
    than nothing. *)
Definition fails (o : operation) (name : string) (len : Z) (s : state V)
  : bool :=
  is_null (request o name len s).1 && (len >? 0).

(** A variable that holds a pointer value. *)
Definition declared (s : state V) (name : string) : Prop :=
  is_Some (vars s !! name).

(** The events of [FREE] on a variable that holds [p], and the state it
    leaves. *)
Definition release_events (b : mode) (name : string) (p : ptr)
  : list event :=
  match b with
  | Tracing => [EvPrintf TraceLine (release_line name)]
  | Silent => []
  end
  ++ match p with
     | Some a => [EvFree a]
     | None => []
     end
  ++ [EvAssign name NULL].

Definition after_release (b : mode) (name : string) (p : ptr) (s : state V)
  : state V :=
  State (match p with
         | Some a => plat_free P a (heap s)
         | None => heap s
         end)
        (<[name := NULL]> (vars s))
        (log s ++ release_events b name p).

End Shape.

(** ** Comparing runs *)

(** [r] with [f] applied to the events of its state. *)
Definition map_log {V A} (f : list event -> list event) (r : result V A)
  : result V A :=
  match r with
  | Normal a s => Normal a (State (heap s) (vars s) (f (log s)))
  | Exited c s => Exited c (State (heap s) (vars s) (f (log s)))
  | Undefined s => Undefined (State (heap s) (vars s) (f (log s)))
  | OutOfFuel => OutOfFuel
  end.

(** Some events without the trace lines among them. *)
Definition untraced (l : list event) : list event :=
  filter (fun e => ~ Is_true (is_trace e)) l.

(** * Properties *)

(** ** Text *)

Section TextFacts.

Lemma app_cons a s t : String a s +:+ t = String a (s +:+ t).
Proof. reflexivity. Qed.

Lemma app_assoc_s a b c : (a +:+ b) +:+ c = a +:+ (b +:+ c).
Proof.
  induction a as [|x a IH]; [reflexivity|].
  rewrite !app_cons. by rewrite IH.
Qed.

Lemma occurs_app c s t : occurs c (s +:+ t) = occurs c s || occurs c t.
Proof.
  induction s as [|x s IH]; [reflexivity|].
  rewrite app_cons. simpl. by destruct (decide (x = c)).
Qed.

Lemma occurs_spaces c n : c <> " "%char -> occurs c (spaces n) = false.
Proof.
  intros Hc. induction n as [|n IH]; [reflexivity|].
  simpl. destruct (decide (" "%char = c)); [congruence|exact IH].
Qed.

Lemma occurs_pad c m w s :
  c <> " "%char -> occurs c (pad m w s) = occurs c s.
Proof.
  intros Hc. unfold pad. destruct m; rewrite occurs_app, occurs_spaces by done.
  - apply orb_false_r.
  - reflexivity.
Qed.

Lemma occurs_digits c d :
  digit c = None -> occurs c (NilEmpty.string_of_uint d) = false.
Proof.
  intros Hc.
  induction d as [|d IH|d IH|d IH|d IH|d IH|d IH|d IH|d IH|d IH|d IH];
    [reflexivity|..]; simpl;
    (destruct (decide (_ = c)) as [<-|_]; [by vm_compute in Hc|exact IH]).
Qed.

Lemma occurs_dec c z :
  digit c = None -> c <> "-"%char -> occurs c (dec z) = false.
Proof.
  intros Hc Hm. unfold dec.
  assert (Hu : forall d, occurs c (NilZero.string_of_uint d) = false).
  { intros d. pose proof (occurs_digits c d Hc) as Hd.
    destruct d; try exact Hd.
    simpl. destruct (decide ("0"%char = c)) as [<-|_]; [by vm_compute in Hc|done]. }
  destruct (Z.to_int z) as [d|d]; simpl; [apply Hu|].
  destruct (decide ("-"%char = c)); [congruence|apply Hu].
Qed.

Lemma dec_no_newline z : no_newline (dec z).
Proof. by apply occurs_dec. Qed.

Lemma contains_mid pre s post : contains (pre +:+ s +:+ post) s.
Proof. by exists pre, post. Qed.

Lemma contains_app_r pre t s : contains t s -> contains (pre +:+ t) s.
Proof.
  intros (a & b & ->). exists (pre +:+ a), b. by rewrite app_assoc_s.
Qed.

(** Literal text without [%] is copied. *)
Lemma format_lit s rest args :
  no_percent s ->
  format Lit (s +:+ rest) args = String.append s <$> format Lit rest args.
Proof.
  unfold no_percent. induction s as [|x s IH]; intros Hs.
  - change (EmptyString +:+ rest) with rest. by destruct (format Lit rest args).
  - simpl in Hs. rewrite app_cons. simpl.
    destruct (decide (x = percent)); [done|].
    rewrite IH by done. by destruct (format Lit rest args).
Qed.

Lemma format_s12 rest s args :
  format Lit ("%12s" +:+ rest) (ArgS s :: args)
  = String.append (pad false 12 s) <$> format Lit rest args.
Proof. reflexivity. Qed.

Lemma format_d6 rest z args :
  format Lit ("%-6d" +:+ rest) (ArgD z :: args)
  = String.append (pad true 6 (dec z)) <$> format Lit rest args.
Proof. reflexivity. Qed.

Lemma format_d rest z args :
  format Lit ("%d" +:+ rest) (ArgD z :: args)
  = String.append (dec z) <$> format Lit rest args.
Proof. reflexivity. Qed.

(** The trace format of the three allocating macros. *)
Lemma format_trace head tn name len_s len :
  no_percent head -> no_percent tn ->
  format Lit ((head +:+ "%12s, %12s=%-6d,") +:+ tn +:+ " )" +:+ NL)
         [ArgS name; ArgS len_s; ArgD len]
  = Some (head +:+ pad false 12 name +:+ ", " +:+ pad false 12 len_s +:+ "="
          +:+ pad true 6 (dec len) +:+ "," +:+ tn +:+ " )" +:+ NL).
Proof.
  intros Hh Ht.
  change "%12s, %12s=%-6d,"
    with ("%12s" +:+ ", " +:+ "%12s" +:+ "=" +:+ "%-6d" +:+ ",").
  rewrite !app_assoc_s.
  rewrite (format_lit head) by done. rewrite format_s12.
  rewrite (format_lit ", ") by done. rewrite format_s12.
  rewrite (format_lit "=") by done. rewrite format_d6.
  rewrite (format_lit ",") by done.
  rewrite (format_lit tn) by done.
  reflexivity.
Qed.

(** The failure format. *)
Lemma format_failure head name len_s tn tail len :
  no_percent head -> no_percent name -> no_percent len_s -> no_percent tn ->
  no_percent tail ->
  format Lit (head +:+ name +:+ "," +:+ len_s +:+ "=%d," +:+ tn +:+ ")"
              +:+ tail) [ArgD len]
  = Some (head +:+ name +:+ "," +:+ len_s +:+ "=" +:+ dec len +:+ ","
          +:+ tn +:+ ")" +:+ tail).
Proof.
  intros Hh Hn Hl Ht Hta.
  change "=%d," with ("=" +:+ "%d" +:+ ",").
  rewrite !app_assoc_s.
  rewrite (format_lit head) by done.
  rewrite (format_lit name) by done.
  rewrite (format_lit ",") by done.
  rewrite (format_lit len_s) by done.
  rewrite (format_lit "=") by done. rewrite format_d.
  rewrite (format_lit ",") by done.
  rewrite (format_lit tn) by done.
  rewrite (format_lit ")") by done.
  replace tail with (tail +:+ EmptyString) at 1
    by (clear; induction tail as [|x t IH]; [done|by rewrite app_cons, IH]).
  rewrite (format_lit tail) by done.
  simpl.
  repeat f_equal.
  clear; induction tail as [|x t IH]; [done|by rewrite app_cons, IH].
Qed.

(** [mentions] reads whole identifiers: it finds [i] in [i], [i+1] and
    [A[i]], and not in [int], [xi], [n] or [n*k]. *)
Lemma mentions_i_samples :
  mentions "i" "i" = true /\ mentions "i" "i+1" = true /\
  mentions "i" "A[i]" = true /\ mentions "i" "int" = false /\
  mentions "i" "xi" = false /\ mentions "i" "n" = false /\
  mentions "i" "n*k" = false.
Proof. by vm_compute. Qed.

End TextFacts.

(** ** [size_t] arithmetic *)

Section SizeFacts.
Context {V : Type} (P : Platform V).

Lemma SIZE_MODULUS_gt_1 : 1 < SIZE_MODULUS P.
Proof.
  unfold SIZE_MODULUS.
  assert (2 ^ 1 <= 2 ^ Z.pos (size_bits P)) by (apply Z.pow_le_mono_r; lia).
  lia.
Qed.

Lemma to_size_t_small z : 0 <= z < SIZE_MODULUS P -> to_size_t P z = z.
Proof. intros Hz. unfold to_size_t. by apply Z.mod_small. Qed.

Lemma to_size_t_range z : 0 <= to_size_t P z < SIZE_MODULUS P.
Proof.
  unfold to_size_t. apply Z.mod_pos_bound.
  pose proof SIZE_MODULUS_gt_1. lia.
Qed.


Lemma to_size_t_THRESH : to_size_t P MY_MALLOC_THRESH = 1.
Proof.
  apply to_size_t_small. pose proof SIZE_MODULUS_gt_1.
  unfold MY_MALLOC_THRESH. lia.
Qed.

(** The product in [size_t] is the product of the integers, reduced. *)
Lemma size_mul_mod len size :
  size_mul P len size = (len * Z.pos size) mod 2 ^ Z.pos (size_bits P).
Proof.
  unfold size_mul, to_size_t, SIZE_MODULUS.
  apply Z.mul_mod_idemp_l.
  pose proof SIZE_MODULUS_gt_1. unfold SIZE_MODULUS in *. lia.
Qed.

Lemma size_mul_small len size :
  0 <= len -> len * Z.pos size < 2 ^ Z.pos (size_bits P) ->
  size_mul P len size = len * Z.pos size.
Proof. intros Hl Hs. rewrite size_mul_mod. apply Z.mod_small. lia. Qed.

Lemma size_mul_0 size : size_mul P 0 size = 0.
Proof. rewrite size_mul_mod. reflexivity. Qed.

End SizeFacts.

(** ** Runs of the macros *)

(** Names the literal pieces of the formats after the operation they belong
    to. *)
Ltac name_formats :=
  change "MALLOC(  %12s, %12s=%-6d,"
    with (label ALLOCATE +:+ "%12s, %12s=%-6d,");
  change "CALLOC(  %12s, %12s=%-6d,"
    with (label ZERO_ALLOCATE +:+ "%12s, %12s=%-6d,");
  change "REALLOC( %12s, %12s=%-6d,"
    with (label RESIZE +:+ "%12s, %12s=%-6d,");
  change "MALLOC(" with (macro_name ALLOCATE +:+ "(");
  change "CALLOC(" with (macro_name ZERO_ALLOCATE +:+ "(");
  change "REALLOC(" with (macro_name RESIZE +:+ "(");
  change ": cannot reallocate space" with (complaint RESIZE).

Ltac open_macro :=
  unfold perform, Debug.MALLOC, Debug.CALLOC, Debug.REALLOC,
    Plain.MALLOC, Plain.CALLOC, Plain.REALLOC;
  unfold fails, after_failure, after_request, finish, trace_events,
    threshold_met, request, request_event in *;
  name_formats; unfold bind.

(** Case analysis on the platform's answer. *)
Ltac answer :=
  match goal with
  | |- context [plat_malloc ?P ?a ?x] =>
      destruct (plat_malloc P a x) as [p h] eqn:E
  | |- context [plat_calloc ?P ?a ?x ?y] =>
      destruct (plat_calloc P a x y) as [p h] eqn:E
  | |- context [plat_realloc ?P ?a ?x ?y] =>
      destruct (plat_realloc P a x y) as [p h] eqn:E
  end.

Section Runs.
Context {V : Type} (T : ctype V) (P : Platform V).

Implicit Types (b : mode) (o : operation) (name len_s : string) (len : Z).
Implicit Types (s : state V).

Lemma printf_trace_eq o name len_s len s :
  no_percent (type_name T) ->
  printf TraceLine
    ((label o +:+ "%12s, %12s=%-6d,") +:+ type_name T +:+ " )" +:+ NL)
    [ArgS name; ArgS len_s; ArgD len] s
  = Normal tt (emit (EvPrintf TraceLine (trace_line T o name len_s len)) s).
Proof.
  intros Ht. unfold printf.
  rewrite format_trace by (done || by destruct o).
  unfold trace_line, trace_body. by rewrite !app_assoc_s.
Qed.

Lemma printf_failure_eq o name len_s len s :
  no_percent name -> no_percent len_s -> no_percent (type_name T) ->
  printf FailureLine
    ((macro_name o +:+ "(") +:+ name +:+ "," +:+ len_s +:+ "=%d,"
     +:+ type_name T +:+ ")" +:+ complaint o) [ArgD len] s
  = Normal tt
      (emit (EvPrintf FailureLine (failure_message T o name len_s len)) s).
Proof.
  intros Hn Hl Ht. unfold printf.
  rewrite format_failure by (done || by destruct o). reflexivity.
Qed.

Lemma printf_release_eq name s :
  printf TraceLine ("FREE(    %12s )" +:+ NL) [ArgS name] s
  = Normal tt (emit (EvPrintf TraceLine (release_line name)) s).
Proof. reflexivity. Qed.

(** A request that does not fail: the macro goes on after the assignment. *)
Lemma perform_success b o name len_s len s :
  (b = Tracing -> threshold_met T P len = true -> no_percent (type_name T)) ->
  (o = RESIZE -> declared s name) ->
  fails T P o name len s = false ->
  perform T P b o name len_s len s
  = finish T o name len (after_request T P b o name len_s len s).
Proof.
  intros Ht Hd Hf.
  destruct b, o; open_macro.
  all: try (destruct (Hd eq_refl) as [q Hq]).
  all: try (destruct (_ >=? _) eqn:Hth;
            [rewrite printf_trace_eq by auto|]).
  all: unfold malloc, calloc, realloc, assign, ret, emit, read, old_handle in *;
    simpl in *; rewrite ?Hq in *; simpl in *.
  all: answer.
  all: simpl in *; rewrite Hf; rewrite <- ?(assoc_L (++)); reflexivity.
Qed.

(** A request that fails: the message, then [exit]. *)
Lemma perform_failure b o name len_s len s :
  no_percent name -> no_percent len_s -> no_percent (type_name T) ->
  (o = RESIZE -> declared s name) ->
  fails T P o name len s = true ->
  perform T P b o name len_s len s
  = Exited (exit_status b o) (after_failure T P b o name len_s len s).
Proof.
  intros Hn Hl Ht Hd Hf.
  destruct b, o; open_macro.
  all: try (destruct (Hd eq_refl) as [q Hq]).
  all: try (destruct (_ >=? _) eqn:Hth;
            [rewrite printf_trace_eq by auto|]).
  all: unfold malloc, calloc, realloc, assign, ret, emit, read, old_handle in *;
    simpl in *; rewrite ?Hq in *; simpl in *.
  all: answer.
  all: simpl in *; rewrite Hf.
  all: first [ rewrite (printf_failure_eq ALLOCATE) by auto
             | rewrite (printf_failure_eq ZERO_ALLOCATE) by auto
             | rewrite (printf_failure_eq RESIZE) by auto ].
  all: unfold exit, emit; simpl; rewrite <- ?(assoc_L (++)); reflexivity.
Qed.

(** A run that reaches the end of the macro: the request did not fail, and
    the rest ran on the heap the platform answered with. *)
Lemma perform_normal_inv b o name len_s len s s' :
  perform T P b o name len_s len s = Normal tt s' ->
  fails T P o name len s = false /\
  (o = RESIZE -> declared s name) /\
  exists l,
    finish T o name len
      (State (request T P o name len s).2
             (<[name := (request T P o name len s).1]> (vars s)) l)
    = Normal tt s'.
Proof.
  destruct b, o; open_macro.
  all: unfold declared, old_handle.
  all: try (destruct (_ >=? _) eqn:Hth); unfold printf at 1.
  all: repeat match goal with
       | |- context [format Lit ?f ?a] => destruct (format Lit f a)
       end.
  all: unfold malloc, calloc, realloc, assign, ret, emit, read; simpl.
  all: try discriminate.
  all: try (destruct (vars s !! name) as [q|] eqn:Hq; simpl; [|discriminate]).
  all: answer; simpl.
  all: destruct (is_null p && (len >? 0)) eqn:Hf; simpl.
  all: unfold printf, exit.
  all: repeat match goal with
       | |- context [format Lit ?f ?a] => destruct (format Lit f a)
       end; try discriminate.
  all: intros Hr; (split; [reflexivity|]); (split; [eauto; discriminate|]).
  all: eauto.
Qed.

End Runs.

(** ** The zeroing loop *)

Section Loop.
Context {V : Type}.
Implicit Types (s : state V) (z : V).

Lemma zero_loop_done fuel name i len z s :
  len <= i -> zero_loop fuel name i len z s = Normal tt s.
Proof.
  intros Hi. destruct fuel; simpl; by rewrite (proj2 (Z.ltb_ge i len)).
Qed.

Lemma store_elem_inv name i z s s' :
  store_elem name i z s = Normal tt s' ->
  exists a blk,
    vars s !! name = Some (Some a) /\ heap s !! a = Some blk /\
    0 <= i < Z.of_nat (length blk) /\
    s' = State (<[a := <[Z.to_nat i := z]> blk]> (heap s)) (vars s) (log s).
Proof.
  unfold store_elem.
  destruct (vars s !! name) as [[a|]|]; try discriminate.
  destruct (heap s !! a) as [blk|] eqn:Hh; try discriminate.
  destruct (decide _); try discriminate.
  intros [= <-]. by exists a, blk.
Qed.

(** What the loop has done when it ends: the region of [name] holds [z]
    from [i] up to [len], and is otherwise as it was. *)
Lemma zero_loop_normal fuel name i len z s s' :
  0 <= i < len ->
  zero_loop fuel name i len z s = Normal tt s' ->
  vars s' = vars s /\ log s' = log s /\
  exists a blk blk',
    vars s !! name = Some (Some a) /\ heap s !! a = Some blk /\
    heap s' = <[a := blk']> (heap s) /\
    length blk' = length blk /\ len <= Z.of_nat (length blk) /\
    (forall j, i <= j < len -> blk' !! Z.to_nat j = Some z) /\
    (forall j : nat, ~ (i <= Z.of_nat j < len) -> blk' !! j = blk !! j).
Proof.
  revert i s. induction fuel as [|fuel IH]; intros i s Hi; simpl;
    rewrite (proj2 (Z.ltb_lt i len)) by lia; [discriminate|].
  unfold bind at 1.
  destruct (store_elem name i z s) as [[] s1| | |] eqn:Hst; try discriminate.
  apply store_elem_inv in Hst as (a & blk & Hv & Hh & Hr & ->).
  intros Hloop.
  destruct (decide (i + 1 < len)) as [Hlt|Hge].
  - apply IH in Hloop as (Hv' & Hl' & a1 & blk1 & blk1' & Ha1 & Hb1 & Hh' & Hlen & Hle & Hin & Hout);
      [|lia].
    simpl in *. rewrite Hv in Ha1. injection Ha1 as <-.
    rewrite lookup_insert_eq in Hb1. injection Hb1 as <-.
    rewrite length_insert in Hlen, Hle.
    split; [done|]. split; [done|].
    exists a, blk, blk1'. repeat split; try done.
    + by rewrite Hh', insert_insert_eq.
    + intros j Hj. destruct (decide (j = i)) as [->|Hne].
      * rewrite Hout by lia. apply list_lookup_insert_eq. lia.
      * apply Hin. lia.
    + intros j Hj. rewrite Hout by lia.
      apply list_lookup_insert_ne. lia.
  - rewrite zero_loop_done in Hloop by lia. injection Hloop as <-. simpl.
    split; [done|]. split; [done|].
    exists a, blk, (<[Z.to_nat i := z]> blk). repeat split; try done.
    + apply length_insert.
    + lia.
    + intros j Hj. assert (j = i) as -> by lia.
      apply list_lookup_insert_eq. lia.
    + intros j Hj. apply list_lookup_insert_ne. lia.
Qed.


Lemma zero_loop_never_starved name len z s :
  zero_loop (Z.to_nat len) name 0 len z s <> OutOfFuel.
Proof.
  assert (H : forall fuel i, 0 <= i -> (Z.to_nat (len - i) <= fuel)%nat ->
              forall s, zero_loop fuel name i len z s <> OutOfFuel).
  { induction fuel as [|fuel IH]; intros i Hi Hf s0; simpl;
      destruct (i <? len) eqn:Hlt; try (unfold ret; discriminate).
    - apply Z.ltb_lt in Hlt. lia.
    - apply Z.ltb_lt in Hlt. unfold bind.
      destruct (store_elem name i z s0) eqn:Hst; try discriminate.
      + apply IH; lia.
      + unfold store_elem in Hst. repeat case_match; discriminate. }
  apply H; lia.
Qed.
End Loop.

(** ** The arena keeps the allocator's contract *)

Section ArenaFacts.
Context {V : Type} (T : ctype V).
Variables (bits : positive) (capacity : Z) (garbage : V).

Lemma raw_length size :
  0 <= size ->
  Z.of_nat (length (Arena.raw (sizeof T) garbage size)) = elems T size.
Proof.
  intros Hs. unfold Arena.raw, elems. rewrite length_replicate.
  apply Z2Nat.id. apply Z.div_pos; lia.
Qed.

Lemma arena_conforming :
  conforming T (Arena.platform bits (sizeof T) capacity garbage).
Proof.
  split; simpl.
  - intros size h a h' Hs. unfold Arena.arena_malloc.
    destruct (decide _); intros [= <- <-].
    eexists. split; [apply lookup_insert_eq|]. by apply raw_length.
  - intros nmemb size h a h' Hn Hs. unfold Arena.arena_calloc, Arena.arena_malloc.
    destruct (decide _); intros [= <- <-].
    eexists. split; [apply lookup_insert_eq|]. apply raw_length. lia.
  - intros p size h a h' Hs. unfold Arena.arena_realloc, Arena.arena_malloc.
    destruct p as [a0|].
    + destruct (decide _); intros [= <- <-].
      eexists. split; [apply lookup_insert_eq|].
      assert (Hn : Z.of_nat (Z.to_nat (size / Z.pos (sizeof T))) = elems T size).
      { apply Z2Nat.id. apply Z.div_pos; lia. }
      split.
      * rewrite length_app, length_take, length_replicate, <- Hn. clear.
        generalize (Z.to_nat (size / Z.pos (sizeof T))) as n.
        generalize (length (default [] (h !! a0))) as m. lia.
      * intros old Ho. simpl in Ho. rewrite Ho. simpl.
        rewrite length_app, length_take, length_replicate.
        generalize (Z.to_nat (size / Z.pos (sizeof T))) as n. intros n.
        rewrite take_app_le by (rewrite length_take; lia).
        rewrite take_take. f_equal. lia.
    + destruct (decide _); intros [= <- <-].
      eexists. split; [apply lookup_insert_eq|].
      split; [by apply raw_length|].
      intros old [= <-]. simpl. by rewrite Nat.min_0_r.
  - intros p size h h' Hr Hs. unfold Arena.arena_realloc, Arena.arena_malloc in Hr.
    destruct p; destruct (decide _); by simplify_eq.
Qed.

Lemma exhausted_conforming : conforming T (Arena.exhausted bits).
Proof. split; simpl; intros; by simplify_eq. Qed.
End ArenaFacts.

(** ** The events of a run *)

Section Events.
Context {V : Type} (T : ctype V) (P : Platform V).

Implicit Types (b : mode) (o : operation) (name len_s : string) (len : Z).
Implicit Types (s : state V).

Lemma store_elem_log name i z s :
  exists s', state_of (store_elem name i z s) = Some s' /\ log s' = log s.
Proof.
  unfold store_elem. repeat case_match; by eexists.
Qed.

(** The loop writes to memory only: whatever its outcome, it adds no
    event. *)
Lemma zero_loop_log fuel name i len z s :
  (Z.to_nat (len - i) <= fuel)%nat ->
  exists s',
    state_of (zero_loop fuel name i len z s) = Some s' /\ log s' = log s.
Proof.
  revert i s. induction fuel as [|fuel IH]; intros i s Hf; simpl;
    destruct (i <? len) eqn:Hlt; try (by eexists).
  - apply Z.ltb_lt in Hlt. lia.
  - apply Z.ltb_lt in Hlt. unfold bind.
    destruct (store_elem_log name i z s) as (s1 & Hs1 & Hl1).
    destruct (store_elem name i z s) as [[] s2|c s2|s2|]; simplify_eq/=;
      try (by eexists).
    destruct (IH (i + 1) s1) as (s' & Hs' & Hl'); [lia|].
    exists s'. split; [done|congruence].
Qed.

Lemma finish_log o name len s :
  exists s', state_of (finish T o name len s) = Some s' /\ log s' = log s.
Proof.
  destruct o; simpl; try (by eexists).
  apply zero_loop_log. lia.
Qed.

(** The events of any run, with nothing assumed of [name] and [len_s]:
    the trace line if the threshold is met, the call, the assignment, and
    then at most the failure message and the exit. *)
Lemma perform_events b o name len_s len s :
  (b = Tracing -> threshold_met T P len = true -> no_percent (type_name T)) ->
  (o = RESIZE -> declared s name) ->
  exists s' post,
    state_of (perform T P b o name len_s len s) = Some s' /\
    log s' = log (after_request T P b o name len_s len s) ++ post /\
    (post = [] \/
     fails T P o name len s = true /\
     exists text,
       post = [EvPrintf FailureLine text; EvExit (exit_status b o)]).
Proof.
  intros Ht Hd.
  destruct (fails T P o name len s) eqn:Hf.
  - revert Hf. destruct b, o; open_macro.
    all: try (destruct (Hd eq_refl) as [q Hq]).
    all: try (destruct (_ >=? _) eqn:Hth;
              [rewrite printf_trace_eq by auto|]).
    all: unfold malloc, calloc, realloc, assign, ret, emit, read, old_handle in *;
      simpl in *; rewrite ?Hq in *; simpl in *.
    all: answer; simpl; intros ->.
    all: unfold printf, exit, emit.
    all: match goal with
         | |- context [format Lit ?f ?a] => destruct (format Lit f a)
         end; simpl.
    all: rewrite <- ?(assoc_L (++)); simpl.
    all: eexists _, _; (split; [reflexivity|]); simpl.
    all: first [ split; [symmetry; apply app_nil_r|by left]
               | split; [rewrite <- ?(assoc_L (++)); reflexivity|right; eauto] ].
  - rewrite perform_success by done.
    destruct (finish_log o name len (after_request T P b o name len_s len s))
      as (s' & Hs' & Hl').
    exists s', []. rewrite app_nil_r. auto.
Qed.

End Events.

(** ** The claims of the specification *)

Section Claims.
Context {V : Type} (T : ctype V) (P : Platform V).

Implicit Types (b : mode) (o : operation) (name len_s : string) (len : Z).
Implicit Types (s : state V).

Lemma elems_mul n : elems T (n * Z.pos (sizeof T)) = n.
Proof. unfold elems. apply Z.div_mul. lia. Qed.

Lemma after_request_handle b o name len_s len s :
  vars (after_request T P b o name len_s len s) !! name
  = Some (request T P o name len s).1.
Proof.
  unfold after_request. destruct (request T P o name len s) as [p h]. simpl.
  apply lookup_insert_eq.
Qed.

Lemma after_request_heap b o name len_s len s :
  heap (after_request T P b o name len_s len s) = (request T P o name len s).2.
Proof.
  unfold after_request. by destruct (request T P o name len s) as [p h].
Qed.

Lemma after_request_log b o name len_s len s :
  log (after_request T P b o name len_s len s)
  = log s ++ trace_events T P b o name len_s len
      ++ [request_event T P o name len s;
          EvAssign name (request T P o name len s).1].
Proof.
  unfold after_request. by destruct (request T P o name len s) as [p h].
Qed.

(** The region [calloc] answers with has as many elements as the macro
    asked for. *)
Lemma calloc_answer name len s a :
  conforming T P ->
  (request T P ZERO_ALLOCATE name len s).1 = Some a ->
  exists blk,
    (request T P ZERO_ALLOCATE name len s).2 !! a = Some blk /\
    Z.of_nat (length blk) = to_size_t P len.
Proof.
  intros HP. simpl.
  destruct (plat_calloc _ _ _ _) as [p h] eqn:E. simpl. intros ->.
  apply (calloc_region T P HP) in E as (blk & Hb & Hl);
    [|apply to_size_t_range|lia].
  exists blk. by rewrite elems_mul in Hl.
Qed.



Lemma realloc_answer name len s p old a :
  conforming T P ->
  vars s !! name = Some p -> pointee (heap s) p = Some old ->
  0 <= len -> len * Z.pos (sizeof T) < 2 ^ Z.pos (size_bits P) ->
  (request T P RESIZE name len s).1 = Some a ->
  exists blk,
    (request T P RESIZE name len s).2 !! a = Some blk /\
    Z.of_nat (length blk) = len /\
    take (Nat.min (Z.to_nat len) (length old)) blk
    = take (Nat.min (Z.to_nat len) (length old)) old.
Proof.
  intros HP Hv Hold Hlen Hfit. simpl. unfold old_handle. rewrite Hv. simpl.
  rewrite size_mul_small by done.
  destruct (plat_realloc _ _ _ _) as [q h] eqn:E. simpl. intros ->.
  apply (realloc_region T P HP) in E as (blk & Hb & Hl & Hpre); [|lia].
  rewrite elems_mul in Hl. exists blk. split; [done|]. split; [done|].
  replace (Z.to_nat len) with (length blk) by lia. by apply Hpre.
Qed.

(** C3, amended.  For a handle that owns the elements [old] and a new
    count [len >= 0] whose byte size [len * sizeof(T)] fits [size_t]: after
    a RESIZE that returns, the handle owns exactly [len] elements and the
    first [min len (length old)] of them are those of [old]; nothing is
    said of the others.  And the macro does return whenever the request
    did not fail. *)
Theorem resize_keeps_prefix b name len_s len s p old :
  conforming T P ->
  vars s !! name = Some p -> pointee (heap s) p = Some old ->
  0 <= len -> len * Z.pos (sizeof T) < 2 ^ Z.pos (size_bits P) ->
  no_percent (type_name T) ->
  (forall s',
      perform T P b RESIZE name len_s len s = Normal tt s' ->
      exists blk,
        region s' name = Some blk /\ Z.of_nat (length blk) = len /\
        take (Nat.min (Z.to_nat len) (length old)) blk
        = take (Nat.min (Z.to_nat len) (length old)) old) /\
  (fails T P RESIZE name len s = false ->
   exists s', perform T P b RESIZE name len_s len s = Normal tt s').
Proof.
  intros HP Hv Hold Hlen Hfit Htn. split.
  - intros s' Hrun.
    apply perform_normal_inv in Hrun as (Hf & _ & l & Hfin).
    unfold fails in Hf.
    pose proof (realloc_answer name len s p old) as Hans.
    destruct (request T P RESIZE name len s) as [q h] eqn:E.
    injection Hfin as <-. unfold region. cbn [vars heap fst snd] in *.
    rewrite lookup_insert_eq.
    destruct q as [a|].
    + by apply Hans.
    + simpl in Hf. assert (len = 0) as -> by lia. by exists [].
  - intros Hf. rewrite perform_success; [by eexists|auto| |done].
    intros _. by exists p.
Qed.


Lemma added_eq {A} s (r : result V A) s' l :
  state_of r = Some s' -> log s' = log s ++ l -> added s r = l.
Proof. intros Hr Hl. unfold added. rewrite Hr, Hl. apply drop_app_length. Qed.

Lemma count_app f (l k : list event) :
  count f (l ++ k) = (count f l + count f k)%nat.
Proof. unfold count. by rewrite filter_app, length_app. Qed.

Lemma threshold_0 : threshold_met T P 0 = false.
Proof.
  unfold threshold_met. rewrite size_mul_0, to_size_t_THRESH. reflexivity.
Qed.

Lemma finish_nonpositive o name len s :
  len <= 0 -> finish T o name len s = Normal tt s.
Proof. intros Hl. destruct o; try done. simpl. by apply zero_loop_done. Qed.

Lemma fails_nonpositive o name len s :
  len <= 0 -> fails T P o name len s = false.
Proof.
  intros Hl. unfold fails. replace (len >? 0) with false by lia.
  apply andb_false_r.
Qed.

(** The region behind a pointer the platform answers with. *)
Lemma request_region o name len s a :
  conforming T P ->
  (request T P o name len s).1 = Some a ->
  exists blk,
    (request T P o name len s).2 !! a = Some blk /\
    Z.of_nat (length blk)
    = match o with
      | ZERO_ALLOCATE => to_size_t P len
      | _ => elems T (size_mul P len (sizeof T))
      end.
Proof.
  intros HP. destruct o; [|by apply calloc_answer|]; simpl.
  - destruct (plat_malloc _ _ _) as [q h] eqn:E. simpl. intros ->.
    apply (malloc_region T P HP) in E; [done|apply to_size_t_range].
  - destruct (plat_realloc _ _ _ _) as [q h] eqn:E. simpl. intros ->.
    apply (realloc_region T P HP) in E as (blk & ? & ? & _);
      [by exists blk|apply to_size_t_range].
Qed.

Lemma request_events_quiet b o name len s p :
  count is_failure [request_event T P o name len s; EvAssign name p] = 0%nat
  /\ count is_exit [request_event T P o name len s; EvAssign name p] = 0%nat
  /\ count is_trace [request_event T P o name len s; EvAssign name p] = 0%nat.
Proof. by destruct o. Qed.

Lemma trace_events_quiet b o name len_s len :
  count is_failure (trace_events T P b o name len_s len) = 0%nat /\
  count is_exit (trace_events T P b o name len_s len) = 0%nat /\
  count is_request (trace_events T P b o name len_s len) = 0%nat.
Proof. unfold trace_events. destruct b; [done|]. by destruct (threshold_met _ _ _). Qed.

(** The events of a run whose request does not fail. *)
Lemma added_success b o name len_s len s :
  (b = Tracing -> threshold_met T P len = true -> no_percent (type_name T)) ->
  (o = RESIZE -> declared s name) ->
  fails T P o name len s = false ->
  added s (perform T P b o name len_s len s)
  = trace_events T P b o name len_s len
      ++ [request_event T P o name len s;
          EvAssign name (request T P o name len s).1].
Proof.
  intros Ht Hd Hf. rewrite perform_success by done.
  destruct (finish_log T o name len (after_request T P b o name len_s len s))
    as (s' & Hs' & Hl').
  eapply added_eq; [exact Hs'|]. by rewrite Hl', after_request_log.
Qed.

(** C4.  With count [0], each of ALLOCATE, ZERO-ALLOCATE and RESIZE, in
    either build mode, returns: it writes no failure message and does not
    exit, also when the platform answers [NULL].  The handle is what the
    platform answered: empty, or a region of no elements.  For
    ZERO-ALLOCATE this is for a handle and a count whose texts do not
    mention [i], the counter [CALLOC] declares in the scope of its
    arguments ([hygienic]). *)
Theorem zero_count_is_legal b o name len_s s :
  conforming T P -> (o = RESIZE -> declared s name) ->
  hygienic o name len_s ->
  exists s',
    perform T P b o name len_s 0 s = Normal tt s' /\
    count is_failure (added s (perform T P b o name len_s 0 s)) = 0%nat /\
    count is_exit (added s (perform T P b o name len_s 0 s)) = 0%nat /\
    handle_is s' name (request T P o name 0 s).1 /\
    (handle_is s' name NULL \/
     exists a, handle_is s' name (Some a) /\ heap s' !! a = Some []).
Proof.
  intros HP Hd _.
  assert (Ht : b = Tracing -> threshold_met T P 0 = true ->
               no_percent (type_name T))
    by (intros _ H; by rewrite threshold_0 in H).
  pose proof (fails_nonpositive o name 0 s (Z.le_refl 0)) as Hf.
  exists (after_request T P b o name len_s 0 s).
  split; [|split; [|split; [|split]]].
  - rewrite perform_success by done. by apply finish_nonpositive.
  - rewrite added_success, count_app by done.
    destruct (trace_events_quiet b o name len_s 0) as (-> & _).
    by destruct (request_events_quiet b o name 0 s (request T P o name 0 s).1)
      as (-> & _).
  - rewrite added_success, count_app by done.
    destruct (trace_events_quiet b o name len_s 0) as (_ & -> & _).
    by destruct (request_events_quiet b o name 0 s (request T P o name 0 s).1)
      as (_ & -> & _).
  - apply after_request_handle.
  - unfold handle_is. rewrite after_request_handle, after_request_heap.
    destruct (request T P o name 0 s).1 as [a|] eqn:Ha; [right|by left].
    exists a. split; [done|].
    destruct (request_region o name 0 s a HP Ha) as (blk & -> & Hl).
    f_equal. apply nil_length_inv.
    assert (Z.of_nat (length blk) = 0) as H0; [|lia].
    rewrite Hl. by destruct o; rewrite ?size_mul_0.
Qed.

(** C8, amended.  With a negative count, each of ALLOCATE, ZERO-ALLOCATE
    and RESIZE, in either build mode, returns: the guard [(len)>0] of the
    failure branch is false, so no failure message is written and the
    process does not exit; the handle is left with whatever the platform
    answered, [NULL] included.  For ZERO-ALLOCATE this is for a handle and
    a count whose texts do not mention [i], the counter [CALLOC] declares
    in the scope of its arguments ([hygienic]). *)
Theorem negative_count_is_not_fatal b o name len_s len s :
  len < 0 -> no_percent (type_name T) -> (o = RESIZE -> declared s name) ->
  hygienic o name len_s ->
  exists s',
    perform T P b o name len_s len s = Normal tt s' /\
    handle_is s' name (request T P o name len s).1 /\
    count is_failure (added s (perform T P b o name len_s len s)) = 0%nat /\
    count is_exit (added s (perform T P b o name len_s len s)) = 0%nat.
Proof.
  intros Hl Htn Hd _.
  pose proof (fails_nonpositive o name len s ltac:(lia)) as Hf.
  exists (after_request T P b o name len_s len s).
  split; [|split; [|split]].
  - rewrite perform_success by auto. apply finish_nonpositive. lia.
  - apply after_request_handle.
  - rewrite added_success, count_app by auto.
    destruct (trace_events_quiet b o name len_s len) as (-> & _).
    by destruct (request_events_quiet b o name len s (request T P o name len s).1)
      as (-> & _).
  - rewrite added_success, count_app by auto.
    destruct (trace_events_quiet b o name len_s len) as (_ & -> & _).
    by destruct (request_events_quiet b o name len s (request T P o name len s).1)
      as (_ & -> & _).
Qed.

Lemma release_run b name p s :
  vars s !! name = Some p ->
  RELEASE P b name s = Normal tt (after_release P b name p s).
Proof.
  intros Hv. unfold after_release, release_events.
  destruct b; unfold RELEASE, Debug.FREE, Plain.FREE, bind;
    rewrite ?printf_release_eq; unfold read, emit; simpl; rewrite Hv.
  all: destruct p as [a|]; unfold free, ret, assign; simpl;
    by rewrite <- ?(assoc_L (++)).
Qed.

(** C5.  RELEASE leaves the handle empty, and a second RELEASE of the now
    empty handle returns with the handle still empty, the heap and the
    variables as they were, no call of [free], no failure message and no
    exit. *)
Theorem release_idempotent b name p s :
  vars s !! name = Some p ->
  exists s1 s2,
    RELEASE P b name s = Normal tt s1 /\ handle_is s1 name NULL /\
    RELEASE P b name s1 = Normal tt s2 /\ handle_is s2 name NULL /\
    heap s2 = heap s1 /\ vars s2 = vars s1 /\
    count is_free (added s1 (RELEASE P b name s1)) = 0%nat /\
    count is_failure (added s1 (RELEASE P b name s1)) = 0%nat /\
    count is_exit (added s1 (RELEASE P b name s1)) = 0%nat.
Proof.
  intros Hv.
  assert (H1 : handle_is (after_release P b name p s) name NULL)
    by apply lookup_insert_eq.
  exists (after_release P b name p s),
         (after_release P b name NULL (after_release P b name p s)).
  rewrite (release_run b name p s Hv).
  rewrite (release_run b name NULL _ H1).
  split; [done|]. split; [done|]. split; [done|].
  split; [apply lookup_insert_eq|]. split; [done|].
  split; [apply insert_insert_eq|].
  unfold added. cbn [state_of after_release log]. rewrite drop_app_length.
  by destruct b.
Qed.

(** The events of any run: the trace line if the threshold is met, the
    call, the assignment, and then at most the failure message and the
    exit. *)
Lemma added_perform b o name len_s len s :
  (b = Tracing -> threshold_met T P len = true -> no_percent (type_name T)) ->
  (o = RESIZE -> declared s name) ->
  exists post,
    added s (perform T P b o name len_s len s)
    = trace_events T P b o name len_s len
        ++ request_event T P o name len s
        :: EvAssign name (request T P o name len s).1 :: post /\
    (post = [] \/
     exists text, post = [EvPrintf FailureLine text; EvExit (exit_status b o)]).
Proof.
  intros Ht Hd.
  destruct (perform_events T P b o name len_s len s Ht Hd)
    as (s' & post & Hs' & Hl' & Hpost).
  exists post. split.
  - eapply added_eq; [exact Hs'|].
    rewrite Hl', after_request_log, <- !(assoc_L (++)). reflexivity.
  - destruct Hpost as [->|(_ & text & ->)]; eauto.
Qed.

Lemma count_trace_events o name len_s len :
  count is_trace (trace_events T P Tracing o name len_s len)
  = (if MY_MALLOC_THRESH
        <=? (len * Z.pos (sizeof T)) mod 2 ^ Z.pos (size_bits P)
     then 1%nat else 0%nat).
Proof.
  unfold trace_events, threshold_met.
  rewrite size_mul_mod, to_size_t_THRESH, Z.geb_leb.
  unfold MY_MALLOC_THRESH. by destruct (1 <=? _).
Qed.

(** C9.  For every count [len], the size ALLOCATE hands to [malloc] and
    RESIZE hands to [realloc] is [len * sizeof(T)] reduced modulo
    [2 ^ size_bits]; the call is made for every [len], with no exit and no
    other call before it: nothing checks the product.  ALLOCATE does so
    whatever the handle held, a pointer without a value included; RESIZE
    reads the handle, which must hold a value.  (ZERO-ALLOCATE hands
    [calloc] the count, reduced alike, and the element size, and leaves the
    product to it; this for a handle and a count whose texts do not mention
    [i], the counter [CALLOC] declares in the scope of its arguments.) *)
Theorem byte_size_is_product_mod b name len_s len s :
  no_percent (type_name T) ->
  let size := (len * Z.pos (sizeof T)) mod 2 ^ Z.pos (size_bits P) in
  (exists pre post,
      added s (perform T P b ALLOCATE name len_s len s)
      = pre ++ EvMalloc size :: post /\
      count is_request pre = 0%nat /\ count is_exit pre = 0%nat) /\
  (declared s name ->
   exists pre post,
     added s (perform T P b RESIZE name len_s len s)
     = pre ++ EvRealloc (old_handle s name) size :: post /\
     count is_request pre = 0%nat /\ count is_exit pre = 0%nat) /\
  (free_of_i name -> free_of_i len_s ->
   exists pre post,
     added s (perform T P b ZERO_ALLOCATE name len_s len s)
     = pre ++ EvCalloc (len mod 2 ^ Z.pos (size_bits P)) (Z.pos (sizeof T))
           :: post /\
     count is_request pre = 0%nat /\ count is_exit pre = 0%nat).
Proof.
  intros Htn size. subst size. rewrite <- size_mul_mod.
  split; [|split].
  - destruct (added_perform b ALLOCATE name len_s len s) as (post & -> & _);
      [auto|discriminate|].
    destruct (trace_events_quiet b ALLOCATE name len_s len) as (_ & ? & ?).
    eauto 10.
  - intros Hd.
    destruct (added_perform b RESIZE name len_s len s) as (post & -> & _);
      [auto|auto|].
    destruct (trace_events_quiet b RESIZE name len_s len) as (_ & ? & ?).
    eauto 10.
  - intros _ _.
    destruct (added_perform b ZERO_ALLOCATE name len_s len s)
      as (post & -> & _); [auto|discriminate|].
    destruct (trace_events_quiet b ZERO_ALLOCATE name len_s len)
      as (_ & ? & ?).
    eauto 10.
Qed.

(** C6, amended.  In tracing mode, ALLOCATE, ZERO-ALLOCATE and RESIZE
    write one trace line if [(len * sizeof(T)) mod 2 ^ size_bits], the
    product as [size_t] holds it, is at least [MY_MALLOC_THRESH], and none
    otherwise; the line comes before the call of the allocator, and no
    trace line follows the call.  RELEASE writes one trace line, always. *)
Theorem trace_line_iff_wrapped_size o name len_s len s :
  no_percent (type_name T) -> (o = RESIZE -> declared s name) ->
  (exists pre post,
      added s (perform T P Tracing o name len_s len s)
      = pre ++ request_event T P o name len s :: post /\
      count is_trace pre
      = (if MY_MALLOC_THRESH
            <=? (len * Z.pos (sizeof T)) mod 2 ^ Z.pos (size_bits P)
         then 1%nat else 0%nat) /\
      count is_request pre = 0%nat /\
      count is_trace post = 0%nat) /\
  count is_trace (added s (RELEASE P Tracing name s)) = 1%nat.
Proof.
  intros Htn Hd. split.
  - destruct (added_perform Tracing o name len_s len s) as (post & -> & Hpost);
      [auto|auto|].
    eexists _, _. split; [reflexivity|].
    split; [apply count_trace_events|].
    split; [apply trace_events_quiet|].
    by destruct Hpost as [->|(text & ->)].
  - destruct (vars s !! name) as [p|] eqn:Hv.
    + rewrite (release_run Tracing name p s Hv).
      unfold added. cbn [state_of after_release log].
      rewrite drop_app_length. by destruct p.
    + unfold RELEASE, Debug.FREE, bind. rewrite printf_release_eq.
      unfold read, emit, added. simpl. rewrite Hv. simpl.
      by rewrite drop_app_length.
Qed.

Lemma failure_message_contains o name len_s len :
  contains (failure_message T o name len_s len) name /\
  contains (failure_message T o name len_s len) (dec len) /\
  contains (failure_message T o name len_s len) (type_name T).
Proof.
  unfold failure_message. split; [apply contains_mid|]. split.
  - do 4 apply contains_app_r. apply contains_mid.
  - do 6 apply contains_app_r. apply contains_mid.
Qed.

(** A failed request for more than nothing, in full. *)
Lemma failure_report b o name len_s len s :
  no_percent name -> no_percent len_s -> no_percent (type_name T) ->
  (o = RESIZE -> declared s name) ->
  0 < len -> (request T P o name len s).1 = NULL ->
  perform T P b o name len_s len s
  = Exited (exit_status b o) (after_failure T P b o name len_s len s) /\
  added s (perform T P b o name len_s len s)
  = trace_events T P b o name len_s len
      ++ [request_event T P o name len s; EvAssign name NULL;
          EvPrintf FailureLine (failure_message T o name len_s len);
          EvExit (exit_status b o)] /\
  (exit_status b o = 1 \/ b = Tracing /\ o = RESIZE).
Proof.
  intros Hn Hl Ht Hd Hlen Hnull.
  assert (Hf : fails T P o name len s = true).
  { unfold fails. rewrite Hnull. simpl. lia. }
  rewrite perform_failure by done. split; [done|]. split.
  - eapply added_eq; [reflexivity|].
    unfold after_failure. cbn [log]. rewrite after_request_log, Hnull.
    by rewrite <- !(assoc_L (++)).
  - destruct b, o; auto.
Qed.


Lemma no_newline_app (u t : string) :
  no_newline u -> no_newline t -> no_newline (u +:+ t).
Proof. unfold no_newline. intros Hu Ht. by rewrite occurs_app, Hu, Ht. Qed.

Lemma no_newline_spaces n : no_newline (spaces n).
Proof. by apply occurs_spaces. Qed.

Lemma no_newline_pad m w (u : string) :
  no_newline u -> no_newline (pad m w u).
Proof. unfold no_newline. intros Hu. by rewrite occurs_pad. Qed.

Lemma single_line_has_newline text :
  single_line text -> occurs newline text = true.
Proof.
  intros (body & -> & _). rewrite occurs_app. apply orb_true_r.
Qed.

Lemma trace_line_single o name len_s len :
  no_newline name -> no_newline len_s -> no_newline (type_name T) ->
  single_line (trace_line T o name len_s len).
Proof.
  intros Hn Hl Ht. exists (trace_body T (label o) name len_s len).
  split; [done|]. unfold trace_body.
  repeat apply no_newline_app;
    auto using no_newline_pad, dec_no_newline, no_newline_spaces;
    by destruct o.
Qed.

Lemma failure_message_no_newline o name len_s len :
  no_newline name -> no_newline len_s -> no_newline (type_name T) ->
  no_newline (failure_message T o name len_s len).
Proof.
  intros Hn Hl Ht. unfold failure_message.
  repeat apply no_newline_app; auto using dec_no_newline; by destruct o.
Qed.

Lemma release_line_single name :
  no_newline name -> single_line (release_line name).
Proof.
  intros Hn. exists ("FREE(    " +:+ pad false 12 name +:+ " )").
  split; [unfold release_line; by rewrite !app_assoc_s|].
  repeat apply no_newline_app;
    auto using no_newline_pad, no_newline_spaces; done.
Qed.

(** C7, amended.  Every trace line, of the three allocating operations and
    of RELEASE, is a single line ended by a newline; the failure message
    holds no newline at all, so it is not ended by one. *)
Theorem trace_lines_end_in_newline b o name len_s len s :
  no_percent name -> no_percent len_s -> no_percent (type_name T) ->
  no_newline name -> no_newline len_s -> no_newline (type_name T) ->
  (o = RESIZE -> declared s name) ->
  (forall k text,
      EvPrintf k text ∈ added s (perform T P b o name len_s len s) ->
      match k with
      | TraceLine => single_line text
      | FailureLine => no_newline text
      end) /\
  (forall k text,
      EvPrintf k text ∈ added s (RELEASE P b name s) ->
      k = TraceLine /\ single_line text).
Proof.
  intros Hpn Hpl Hpt Hn Hl Ht Hd.
  assert (Htr : forall k text,
             EvPrintf k text ∈ trace_events T P b o name len_s len ->
             k = TraceLine /\ single_line text).
  { intros k text. unfold trace_events.
    destruct b; [by intros ?%elem_of_nil|].
    destruct (threshold_met _ _ _); [|by intros ?%elem_of_nil].
    intros [= -> ->]%list_elem_of_singleton.
    split; [done|by apply trace_line_single]. }
  split.
  - intros k text.
    destruct (fails T P o name len s) eqn:Hf.
    + rewrite perform_failure by done.
      unfold added, after_failure. cbn [state_of log].
      rewrite after_request_log, <- !(assoc_L (++)), drop_app_length.
      rewrite elem_of_app. intros [Hin|Hin].
      * by destruct (Htr k text Hin) as [-> ?].
      * destruct o; set_unfold; repeat (destruct Hin as [Hin|Hin]);
          try done; simplify_eq; by apply failure_message_no_newline.
    + rewrite added_success by auto.
      rewrite elem_of_app. intros [Hin|Hin].
      * by destruct (Htr k text Hin) as [-> ?].
      * destruct o; set_unfold; repeat (destruct Hin as [Hin|Hin]);
          try done; simplify_eq.
  - intros k text.
    destruct (vars s !! name) as [p|] eqn:Hv.
    + rewrite (release_run b name p s Hv).
      unfold added. cbn [state_of after_release log].
      rewrite drop_app_length. unfold release_events.
      destruct b, p; set_unfold; intros Hin;
        repeat (destruct Hin as [Hin|Hin]); try done; simplify_eq.
      all: split; [done|by apply release_line_single].
    + destruct b; unfold RELEASE, Debug.FREE, Plain.FREE, bind;
        rewrite ?printf_release_eq; unfold read, emit, added; simpl;
        rewrite Hv; simpl.
      * rewrite drop_all. by intros ?%elem_of_nil.
      * rewrite drop_app_length. intros [= -> ->]%list_elem_of_singleton.
        split; [done|by apply release_line_single].
Qed.

End Claims.

(** Against C3 as stated.  On a platform with a 32-bit [size_t], resizing
    the handle [y] of three [int]s to [2 ^ 30 + 1] elements asks [realloc]
    for 4 bytes; the call succeeds, the macro returns, and [y] owns one
    element. *)
Lemma resize_wraps_short :
  exists s',
    perform int ilp32_int Silent RESIZE "y" "n" (2 ^ 30 + 1) with_y
    = Normal tt s' /\
    ~ owns s' "y" (2 ^ 30 + 1).
Proof.
  eexists. split; [vm_compute; reflexivity|].
  intros (blk & Hreg & Hlen). vm_compute in Hreg. injection Hreg as <-.
  discriminate Hlen.
Qed.


(** C1, at the input where the code departs from it.  A RESIZE to five [int]s
    that the platform cannot serve writes the failure message and exits: with
    status 11 in tracing mode, with status 1 in silent mode.  (For the other
    five macros [failure_report] gives status 1.) *)
Theorem resize_failure_status_differs :
  (exists s',
      perform int lp64_none Tracing RESIZE "y" "5" 5 with_y = Exited 11 s' /\
      added with_y (perform int lp64_none Tracing RESIZE "y" "5" 5 with_y)
      = [EvPrintf TraceLine (trace_line int RESIZE "y" "5" 5);
         EvRealloc (Some 1%positive) 20; EvAssign "y" NULL;
         EvPrintf FailureLine "REALLOC(y,5=5,int): cannot reallocate space";
         EvExit 11]) /\
  (exists s',
      perform int lp64_none Silent RESIZE "y" "5" 5 with_y = Exited 1 s' /\
      added with_y (perform int lp64_none Silent RESIZE "y" "5" 5 with_y)
      = [EvRealloc (Some 1%positive) 20; EvAssign "y" NULL;
         EvPrintf FailureLine "REALLOC(y,5=5,int): cannot reallocate space";
         EvExit 1]).
Proof.
  split; eexists; (split; [vm_compute; reflexivity|vm_compute; reflexivity]).
Qed.

(** Against C8 as stated.  ALLOCATE with count [-1] on a platform that
    answers [NULL] returns with the handle empty, having written nothing. *)
Lemma negative_count_returns :
  exists s',
    perform int lp64_none Silent ALLOCATE "y" "n" (-1) with_y = Normal tt s' /\
    handle_is s' "y" NULL /\
    added with_y (perform int lp64_none Silent ALLOCATE "y" "n" (-1) with_y)
    = [EvMalloc (2 ^ 64 - 4); EvAssign "y" NULL].
Proof.
  eexists. split; [vm_compute; reflexivity|]. split; [reflexivity|].
  vm_compute. reflexivity.
Qed.

(** Against C6 as stated.  With a 32-bit [size_t], ALLOCATE of [2 ^ 30]
    [int]s writes no trace line although the product is [2 ^ 32]; with a
    64-bit [size_t], ALLOCATE with count [-1] writes one although the product
    is [-4]. *)
Lemma trace_threshold_wraps :
  count is_trace
    (added with_y (perform int ilp32_int Tracing ALLOCATE "y" "n" (2 ^ 30) with_y))
  <> (if MY_MALLOC_THRESH <=? 2 ^ 30 * Z.pos (sizeof int) then 1%nat else 0%nat)
  /\
  count is_trace
    (added with_y (perform int lp64_int Tracing ALLOCATE "y" "n" (-1) with_y))
  <> (if MY_MALLOC_THRESH <=? (-1) * Z.pos (sizeof int) then 1%nat else 0%nat).
Proof. split; vm_compute; discriminate. Qed.

(** Against C7 as stated.  The message of a failed ALLOCATE is written, and
    it is not a line ended by a newline. *)
Lemma failure_message_unterminated :
  EvPrintf FailureLine "MALLOC(x,n=5,int): cannot allocate space"
    ∈ added start (perform int lp64_none Silent ALLOCATE "x" "n" 5 start) /\
  ~ single_line "MALLOC(x,n=5,int): cannot allocate space".
Proof.
  split.
  - assert (added start (perform int lp64_none Silent ALLOCATE "x" "n" 5 start)
            = [EvMalloc 20; EvAssign "x" NULL;
               EvPrintf FailureLine "MALLOC(x,n=5,int): cannot allocate space";
               EvExit 1]) as -> by (vm_compute; reflexivity).
    set_solver.
  - intros H%single_line_has_newline. vm_compute in H. discriminate.
Qed.

(** ** Scenarios of the specification, run on the arena *)

(** [CALLOC(x, 4, double)] on memory that holds [170] everywhere. *)
Example scenario_zero_allocate :
  exists s',
    perform double lp64_double Silent ZERO_ALLOCATE "x" "4" 4 start
    = Normal tt s' /\
    region s' "x" = Some [0; 0; 0; 0].
Proof. eexists. split; vm_compute; reflexivity. Qed.

(** [y] holds [7, 8, 9]; [REALLOC(y, 5, int)] keeps them. *)
Example scenario_resize_grows :
  exists s',
    perform int lp64_int Silent RESIZE "y" "5" 5 with_y = Normal tt s' /\
    region s' "y" = Some [7; 8; 9; 170; 170].
Proof. eexists. split; vm_compute; reflexivity. Qed.

(** [MALLOC(z, 2, int); REALLOC(z, 0, int); FREE(z);] ends with [z] empty
    and the heap as it was. *)
Example scenario_resize_to_nothing :
  exists s',
    (perform int lp64_int Silent ALLOCATE "z" "2" 2 ;;;
     perform int lp64_int Silent RESIZE "z" "0" 0 ;;;
     RELEASE lp64_int Silent "z") start
    = Normal tt s' /\
    handle_is s' "z" NULL /\ heap s' = heap start.
Proof. eexists. repeat split; vm_compute; reflexivity. Qed.

(** With [MALLOCDEBUG]: [MALLOC(a, 10, int); FREE(a);] writes two trace
    lines and nothing else. *)
Example scenario_trace :
  added start
    ((perform int lp64_int Tracing ALLOCATE "a" "10" 10 ;;;
      RELEASE lp64_int Tracing "a") start)
  = [EvPrintf TraceLine (trace_line int ALLOCATE "a" "10" 10);
     EvMalloc 40; EvAssign "a" (Some 1%positive);
     EvPrintf TraceLine (release_line "a");
     EvFree 1%positive; EvAssign "a" NULL].
Proof. vm_compute. reflexivity. Qed.

(** ** The theorems at concrete inputs *)


(** C3, amended, at [REALLOC(y, 5, int)] with [y] holding [7, 8, 9]. *)
Lemma resize_keeps_prefix_witness :
  conforming int lp64_int /\
  vars with_y !! "y" = Some (Some 1%positive) /\
  pointee (heap with_y) (Some 1%positive) = Some [7; 8; 9] /\
  0 <= 5 /\ 5 * Z.pos (sizeof int) < 2 ^ Z.pos (size_bits lp64_int) /\
  no_percent (type_name int) /\
  ((forall s',
       perform int lp64_int Tracing RESIZE "y" "5" 5 with_y = Normal tt s' ->
       exists blk,
         region s' "y" = Some blk /\ Z.of_nat (length blk) = 5 /\
         take (Nat.min (Z.to_nat 5) (length [7; 8; 9])) blk
         = take (Nat.min (Z.to_nat 5) (length [7; 8; 9])) [7; 8; 9]) /\
   (fails int lp64_int RESIZE "y" 5 with_y = false ->
    exists s',
      perform int lp64_int Tracing RESIZE "y" "5" 5 with_y = Normal tt s')).
Proof.
  assert (H1 : conforming int lp64_int) by apply (arena_conforming int).
  assert (H2 : vars with_y !! "y" = Some (Some 1%positive)) by reflexivity.
  assert (H3 : pointee (heap with_y) (Some 1%positive) = Some [7; 8; 9])
    by reflexivity.
  assert (H4 : 0 <= 5) by lia.
  assert (H5 : 5 * Z.pos (sizeof int) < 2 ^ Z.pos (size_bits lp64_int))
    by reflexivity.
  assert (H6 : no_percent (type_name int)) by reflexivity.
  exact (conj H1 (conj H2 (conj H3 (conj H4 (conj H5 (conj H6
    (resize_keeps_prefix int lp64_int Tracing "y" "5" 5 with_y
       (Some 1%positive) [7; 8; 9] H1 H2 H3 H4 H5 H6))))))).
Defined.

(** C4 at [REALLOC(y, 0, int)] with [MALLOCDEBUG]. *)
Lemma zero_count_is_legal_witness :
  conforming int lp64_int /\
  (RESIZE = RESIZE -> declared with_y "y") /\ hygienic RESIZE "y" "0" /\
  (ZERO_ALLOCATE = RESIZE -> declared with_y "y") /\
  hygienic ZERO_ALLOCATE "y" "0" /\
  (exists s',
    perform int lp64_int Tracing RESIZE "y" "0" 0 with_y = Normal tt s' /\
    count is_failure
      (added with_y (perform int lp64_int Tracing RESIZE "y" "0" 0 with_y))
    = 0%nat /\
    count is_exit
      (added with_y (perform int lp64_int Tracing RESIZE "y" "0" 0 with_y))
    = 0%nat /\
    handle_is s' "y" (request int lp64_int RESIZE "y" 0 with_y).1 /\
    (handle_is s' "y" NULL \/
     exists a, handle_is s' "y" (Some a) /\ heap s' !! a = Some [])) /\
  (exists s',
    perform int lp64_int Tracing ZERO_ALLOCATE "y" "0" 0 with_y
    = Normal tt s' /\
    count is_failure
      (added with_y
         (perform int lp64_int Tracing ZERO_ALLOCATE "y" "0" 0 with_y))
    = 0%nat /\
    count is_exit
      (added with_y
         (perform int lp64_int Tracing ZERO_ALLOCATE "y" "0" 0 with_y))
    = 0%nat /\
    handle_is s' "y" (request int lp64_int ZERO_ALLOCATE "y" 0 with_y).1 /\
    (handle_is s' "y" NULL \/
     exists a, handle_is s' "y" (Some a) /\ heap s' !! a = Some [])).
Proof.
  assert (H1 : conforming int lp64_int) by apply (arena_conforming int).
  assert (H2 : RESIZE = RESIZE -> declared with_y "y")
    by (intros _; exists (Some 1%positive); reflexivity).
  assert (H3 : hygienic RESIZE "y" "0") by discriminate.
  assert (H4 : ZERO_ALLOCATE = RESIZE -> declared with_y "y") by discriminate.
  assert (H5 : hygienic ZERO_ALLOCATE "y" "0")
    by (intros _; split; reflexivity).
  exact (conj H1 (conj H2 (conj H3 (conj H4 (conj H5 (conj
    (zero_count_is_legal int lp64_int Tracing RESIZE "y" "0" with_y H1 H2 H3)
    (zero_count_is_legal int lp64_int Tracing ZERO_ALLOCATE "y" "0" with_y
       H1 H4 H5))))))).
Defined.

(** C5 at [FREE(y); FREE(y);] with [MALLOCDEBUG]. *)
Lemma release_idempotent_witness :
  vars with_y !! "y" = Some (Some 1%positive) /\
  exists s1 s2,
    RELEASE lp64_int Tracing "y" with_y = Normal tt s1 /\
    handle_is s1 "y" NULL /\
    RELEASE lp64_int Tracing "y" s1 = Normal tt s2 /\
    handle_is s2 "y" NULL /\
    heap s2 = heap s1 /\ vars s2 = vars s1 /\
    count is_free (added s1 (RELEASE lp64_int Tracing "y" s1)) = 0%nat /\
    count is_failure (added s1 (RELEASE lp64_int Tracing "y" s1)) = 0%nat /\
    count is_exit (added s1 (RELEASE lp64_int Tracing "y" s1)) = 0%nat.
Proof.
  assert (H1 : vars with_y !! "y" = Some (Some 1%positive)) by reflexivity.
  exact (conj H1
    (release_idempotent lp64_int Tracing "y" (Some 1%positive) with_y H1)).
Defined.

(** C6, amended, at [MALLOC(a, 10, int)] and [FREE(a)]. *)
Lemma trace_line_iff_wrapped_size_witness :
  no_percent (type_name int) /\ (ALLOCATE = RESIZE -> declared start "a") /\
  ((exists pre post,
       added start (perform int lp64_int Tracing ALLOCATE "a" "10" 10 start)
       = pre ++ request_event int lp64_int ALLOCATE "a" 10 start :: post /\
       count is_trace pre
       = (if MY_MALLOC_THRESH
             <=? (10 * Z.pos (sizeof int)) mod 2 ^ Z.pos (size_bits lp64_int)
          then 1%nat else 0%nat) /\
       count is_request pre = 0%nat /\
       count is_trace post = 0%nat) /\
   count is_trace (added start (RELEASE lp64_int Tracing "a" start)) = 1%nat).
Proof.
  assert (H1 : no_percent (type_name int)) by reflexivity.
  assert (H2 : ALLOCATE = RESIZE -> declared start "a") by discriminate.
  exact (conj H1 (conj H2
    (trace_line_iff_wrapped_size int lp64_int ALLOCATE "a" "10" 10 start
       H1 H2))).
Defined.

(** C7, amended, at [MALLOC(x, n, int)] with [n] equal to [5] and no memory
    left. *)
Lemma trace_lines_end_in_newline_witness :
  no_percent "x" /\ no_percent "n" /\ no_percent (type_name int) /\
  no_newline "x" /\ no_newline "n" /\ no_newline (type_name int) /\
  (ALLOCATE = RESIZE -> declared start "x") /\
  ((forall k text,
       EvPrintf k text
         ∈ added start (perform int lp64_none Tracing ALLOCATE "x" "n" 5 start) ->
       match k with
       | TraceLine => single_line text
       | FailureLine => no_newline text
       end) /\
   (forall k text,
       EvPrintf k text ∈ added start (RELEASE lp64_none Tracing "x" start) ->
       k = TraceLine /\ single_line text)).
Proof.
  assert (H1 : no_percent "x") by reflexivity.
  assert (H2 : no_percent "n") by reflexivity.
  assert (H3 : no_percent (type_name int)) by reflexivity.
  assert (H4 : no_newline "x") by reflexivity.
  assert (H5 : no_newline "n") by reflexivity.
  assert (H6 : no_newline (type_name int)) by reflexivity.
  assert (H7 : ALLOCATE = RESIZE -> declared start "x") by discriminate.
  exact (conj H1 (conj H2 (conj H3 (conj H4 (conj H5 (conj H6 (conj H7
    (trace_lines_end_in_newline int lp64_none Tracing ALLOCATE "x" "n" 5
       start H1 H2 H3 H4 H5 H6 H7)))))))).
Defined.

(** C8, amended, at [MALLOC(y, n, int)] with [n] equal to [-1]. *)
Lemma negative_count_is_not_fatal_witness :
  -1 < 0 /\ no_percent (type_name int) /\
  (ALLOCATE = RESIZE -> declared with_y "y") /\ hygienic ALLOCATE "y" "n" /\
  (ZERO_ALLOCATE = RESIZE -> declared with_y "y") /\
  hygienic ZERO_ALLOCATE "y" "n" /\
  (exists s',
    perform int lp64_none Tracing ALLOCATE "y" "n" (-1) with_y = Normal tt s' /\
    handle_is s' "y" (request int lp64_none ALLOCATE "y" (-1) with_y).1 /\
    count is_failure
      (added with_y (perform int lp64_none Tracing ALLOCATE "y" "n" (-1) with_y))
    = 0%nat /\
    count is_exit
      (added with_y (perform int lp64_none Tracing ALLOCATE "y" "n" (-1) with_y))
    = 0%nat) /\
  (exists s',
    perform int lp64_none Tracing ZERO_ALLOCATE "y" "n" (-1) with_y
    = Normal tt s' /\
    handle_is s' "y" (request int lp64_none ZERO_ALLOCATE "y" (-1) with_y).1 /\
    count is_failure
      (added with_y
         (perform int lp64_none Tracing ZERO_ALLOCATE "y" "n" (-1) with_y))
    = 0%nat /\
    count is_exit
      (added with_y
         (perform int lp64_none Tracing ZERO_ALLOCATE "y" "n" (-1) with_y))
    = 0%nat).
Proof.
  assert (H1 : -1 < 0) by lia.
  assert (H2 : no_percent (type_name int)) by reflexivity.
  assert (H3 : ALLOCATE = RESIZE -> declared with_y "y") by discriminate.
  assert (H4 : hygienic ALLOCATE "y" "n") by discriminate.
  assert (H5 : ZERO_ALLOCATE = RESIZE -> declared with_y "y") by discriminate.
  assert (H6 : hygienic ZERO_ALLOCATE "y" "n")
    by (intros _; split; reflexivity).
  exact (conj H1 (conj H2 (conj H3 (conj H4 (conj H5 (conj H6 (conj
    (negative_count_is_not_fatal int lp64_none Tracing ALLOCATE "y" "n" (-1)
       with_y H1 H2 H3 H4)
    (negative_count_is_not_fatal int lp64_none Tracing ZERO_ALLOCATE "y" "n"
       (-1) with_y H1 H2 H5 H6)))))))).
Defined.

(** C9 at a count of [2 ^ 30 + 1] [int]s with a 32-bit [size_t]: 4 bytes. *)
Lemma byte_size_is_product_mod_witness :
  no_percent (type_name int) /\ declared with_y "y" /\
  free_of_i "y" /\ free_of_i "n" /\
  let size :=
    ((2 ^ 30 + 1) * Z.pos (sizeof int)) mod 2 ^ Z.pos (size_bits ilp32_int) in
  (exists pre post,
      added with_y (perform int ilp32_int Tracing ALLOCATE "y" "n" (2 ^ 30 + 1) with_y)
      = pre ++ EvMalloc size :: post /\
      count is_request pre = 0%nat /\ count is_exit pre = 0%nat) /\
  (exists pre post,
      added with_y (perform int ilp32_int Tracing RESIZE "y" "n" (2 ^ 30 + 1) with_y)
      = pre ++ EvRealloc (old_handle with_y "y") size :: post /\
      count is_request pre = 0%nat /\ count is_exit pre = 0%nat) /\
  (exists pre post,
      added with_y
        (perform int ilp32_int Tracing ZERO_ALLOCATE "y" "n" (2 ^ 30 + 1) with_y)
      = pre ++ EvCalloc ((2 ^ 30 + 1) mod 2 ^ Z.pos (size_bits ilp32_int))
                 (Z.pos (sizeof int)) :: post /\
      count is_request pre = 0%nat /\ count is_exit pre = 0%nat).
Proof.
  assert (H1 : no_percent (type_name int)) by reflexivity.
  assert (H2 : declared with_y "y")
    by (exists (Some 1%positive); reflexivity).
  assert (H3 : free_of_i "y") by reflexivity.
  assert (H4 : free_of_i "n") by reflexivity.
  pose proof (byte_size_is_product_mod int ilp32_int Tracing "y" "n"
                (2 ^ 30 + 1) with_y H1) as H.
  exact (conj H1 (conj H2 (conj H3 (conj H4
    (conj (proj1 H)
       (conj (proj1 (proj2 H) H2) (proj2 (proj2 H) H3 H4))))))).
Defined.


(** * Further properties of the macros *)

Section Further.
Context {V : Type} (T : ctype V) (P : Platform V).
Implicit Types (b : mode) (o : operation) (name len_s : string) (len : Z).
Implicit Types (s : state V).

Lemma store_elem_keeps name i z s :
  exists s',
    state_of (store_elem name i z s) = Some s' /\
    log s' = log s /\ vars s' = vars s.
Proof. unfold store_elem. repeat case_match; by eexists. Qed.

Lemma zero_loop_keeps fuel name i len z s :
  (Z.to_nat (len - i) <= fuel)%nat ->
  exists s',
    state_of (zero_loop fuel name i len z s) = Some s' /\
    log s' = log s /\ vars s' = vars s.
Proof.
  revert i s. induction fuel as [|fuel IH]; intros i s Hf; simpl;
    destruct (i <? len) eqn:Hlt; try (by eexists).
  - apply Z.ltb_lt in Hlt. lia.
  - apply Z.ltb_lt in Hlt. unfold bind.
    destruct (store_elem_keeps name i z s) as (s1 & Hs1 & Hl1 & Hv1).
    destruct (store_elem name i z s) as [[] s2|c s2|s2|]; simplify_eq/=;
      try (by eexists).
    destruct (IH (i + 1) s1) as (s' & Hs' & Hl' & Hv'); [lia|].
    exists s'. split; [done|]. split; congruence.
Qed.

(** Every run ends, in a state whose other variables are as they were and
    whose new events hold no call of [free]. *)
Lemma perform_any b o name len_s len s :
  exists s',
    state_of (perform T P b o name len_s len s) = Some s' /\
    (forall other, other <> name -> vars s' !! other = vars s !! other) /\
    exists evs, log s' = log s ++ evs /\ count is_free evs = 0%nat.
Proof.
  assert (Hz : forall s1,
    (forall other, other <> name -> vars s1 !! other = vars s !! other) ->
    (exists evs, log s1 = log s ++ evs /\ count is_free evs = 0%nat) ->
    exists s',
      state_of (zero_loop (Z.to_nat len) name 0 len (zero T) s1) = Some s' /\
      (forall other, other <> name -> vars s' !! other = vars s !! other) /\
      exists evs, log s' = log s ++ evs /\ count is_free evs = 0%nat).
  { intros s1 Hv He.
    destruct (zero_loop_keeps (Z.to_nat len) name 0 len (zero T) s1)
      as (s' & Hs' & Hl & Hv'); [lia|].
    exists s'. split; [done|]. rewrite Hl, Hv'. auto. }
  destruct b, o;
    unfold perform, Debug.MALLOC, Debug.CALLOC, Debug.REALLOC,
      Plain.MALLOC, Plain.CALLOC, Plain.REALLOC;
    unfold bind, printf, malloc, calloc, realloc, assign, read, exit, ret,
      emit.
  all: repeat match goal with
       | |- context [format Lit ?f ?a] =>
           let r := fresh "r" in generalize (format Lit f a); intros r
       end.
  all: repeat (case_match; simpl in *; simplify_eq).
  all: try apply Hz; simpl.
  all: try (eexists; split; [reflexivity|]; simpl).
  all: try (split; [intros other Ho; by rewrite ?lookup_insert_ne by done|]).
  all: try (intros other Ho; by rewrite ?lookup_insert_ne by done).
  all: rewrite <- ?(assoc_L (++)); try (by eexists; split; [reflexivity|]).
  all: try (exists []; by rewrite app_nil_r).
Qed.

Lemma release_any b name s :
  exists s',
    state_of (RELEASE P b name s) = Some s' /\
    (forall other, other <> name -> vars s' !! other = vars s !! other) /\
    exists evs,
      log s' = log s ++ evs /\
      count is_request evs = 0%nat /\ count is_failure evs = 0%nat /\
      count is_exit evs = 0%nat.
Proof.
  destruct (vars s !! name) as [p|] eqn:Hv.
  - rewrite (release_run P b name p s Hv).
    eexists. split; [reflexivity|]. split.
    + intros other Ho. by apply lookup_insert_ne.
    + exists (release_events b name p). split; [done|]. by destruct b, p.
  - destruct b; unfold RELEASE, Debug.FREE, Plain.FREE, bind;
      rewrite ?printf_release_eq; unfold read, emit; simpl; rewrite Hv;
      simpl; (eexists; split; [reflexivity|]); (split; [done|]); simpl.
    + exists []. by rewrite app_nil_r.
    + by eexists.
Qed.

(** X6.  Every run of the four operations ends (it returns, exits or is
    undefined, the loop bound of the model is never used up), and in the
    state it ends in every variable other than the handle it was given
    holds what it held before.  For ZERO-ALLOCATE this is for a handle and a
    count whose texts do not mention [i], the counter [CALLOC] declares in
    the scope of its arguments ([hygienic]): the loop then tests its counter
    against the one value of the count and writes through the one handle. *)
Theorem other_handles_untouched b o name len_s len s other :
  other <> name -> hygienic o name len_s ->
  (exists s',
      state_of (perform T P b o name len_s len s) = Some s' /\
      vars s' !! other = vars s !! other) /\
  (exists s',
      state_of (RELEASE P b name s) = Some s' /\
      vars s' !! other = vars s !! other).
Proof.
  intros Ho _. split.
  - destruct (perform_any b o name len_s len s) as (s' & Hs' & Hv & _).
    exists s'. auto.
  - destruct (release_any b name s) as (s' & Hs' & Hv & _).
    exists s'. auto.
Qed.

(** X7.  ALLOCATE, ZERO-ALLOCATE and RESIZE never call [free] themselves,
    also when the handle they are given owns a region; RELEASE never calls
    [malloc], [calloc] or [realloc], never writes a failure message and
    never exits. *)
Theorem allocation_never_frees b o name len_s len s :
  count is_free (added s (perform T P b o name len_s len s)) = 0%nat /\
  count is_request (added s (RELEASE P b name s)) = 0%nat /\
  count is_failure (added s (RELEASE P b name s)) = 0%nat /\
  count is_exit (added s (RELEASE P b name s)) = 0%nat.
Proof.
  destruct (perform_any b o name len_s len s)
    as (s1 & Hs1 & _ & evs1 & Hl1 & Hf).
  destruct (release_any b name s)
    as (s2 & Hs2 & _ & evs2 & Hl2 & Hr & Hfa & He).
  rewrite (added_eq s _ s1 evs1 Hs1 Hl1), (added_eq s _ s2 evs2 Hs2 Hl2).
  auto.
Qed.

(** A run that returns from a request for more than nothing leaves the
    pointer the platform answered with in the handle. *)
Lemma perform_normal_handle b o name len_s len s s' :
  perform T P b o name len_s len s = Normal tt s' ->
  fails T P o name len s = false /\
  handle_is s' name (request T P o name len s).1.
Proof.
  intros Hrun.
  apply perform_normal_inv in Hrun as (Hf & _ & l & Hfin).
  split; [done|]. unfold handle_is.
  destruct o; simpl in Hfin; try (injection Hfin as <-; apply lookup_insert_eq).
  destruct (decide (0 < len)) as [Hpos|Hle].
  - apply zero_loop_normal in Hfin as (-> & _); [|lia].
    apply lookup_insert_eq.
  - rewrite zero_loop_done in Hfin by lia. injection Hfin as <-.
    apply lookup_insert_eq.
Qed.



(** X2.  For a count [len >= 0] whose byte size fits [size_t]: after an
    ALLOCATE that returns, the handle owns exactly [len] elements, and the
    heap is the one [malloc] left, the macro has written nothing to it.  And
    ALLOCATE does return whenever the request did not fail. *)
Theorem allocate_owns b name len_s len s :
  conforming T P -> 0 <= len ->
  len * Z.pos (sizeof T) < 2 ^ Z.pos (size_bits P) ->
  no_percent (type_name T) ->
  (forall s',
      perform T P b ALLOCATE name len_s len s = Normal tt s' ->
      owns s' name len /\
      heap s' = (plat_malloc P (len * Z.pos (sizeof T)) (heap s)).2) /\
  (fails T P ALLOCATE name len s = false ->
   exists s', perform T P b ALLOCATE name len_s len s = Normal tt s').
Proof.
  intros HP Hlen Hfit Htn. split.
  - intros s' Hrun.
    pose proof (perform_normal_handle _ _ _ _ _ _ _ Hrun) as (Hf & Hh).
    apply perform_normal_inv in Hrun as (_ & _ & l & Hfin).
    injection Hfin as <-. unfold handle_is in Hh. cbn [heap vars] in *.
    pose proof (request_region T P ALLOCATE name len s) as Hreg.
    cbn [request] in *. rewrite size_mul_small in * by done.
    split; [|done]. unfold owns, region. cbn [heap vars]. rewrite Hh.
    destruct (plat_malloc _ _ _).1 as [a|] eqn:Ha.
    + destruct (Hreg a HP eq_refl) as (blk & Hb & Hl).
      exists blk. split; [done|]. by rewrite Hl, elems_mul.
    + unfold fails in Hf. cbn [request] in Hf.
      rewrite size_mul_small, Ha in Hf by done. simpl in Hf.
      exists []. split; [done|]. simpl. lia.
  - intros Hf. rewrite perform_success; [by eexists|auto|discriminate|done].
Qed.


(** X4.  RELEASE of a handle that holds an address returns, having called
    [free] once, on that address, and then set the handle to [NULL]; before
    that it has written its trace line with [MALLOCDEBUG] and nothing
    without. *)
Theorem release_frees_what_the_handle_holds b name a s :
  handle_is s name (Some a) ->
  exists s',
    RELEASE P b name s = Normal tt s' /\
    handle_is s' name NULL /\
    heap s' = plat_free P a (heap s) /\
    exists pre,
      added s (RELEASE P b name s) = pre ++ [EvFree a; EvAssign name NULL] /\
      count is_free pre = 0%nat /\
      count is_trace pre = (if b is Tracing then 1%nat else 0%nat).
Proof.
  intros Hh. rewrite (release_run P b name (Some a) s Hh).
  eexists. split; [reflexivity|]. split; [apply lookup_insert_eq|].
  split; [done|]. unfold added. cbn [state_of after_release log].
  rewrite drop_app_length. unfold release_events.
  destruct b; eexists; (split; [reflexivity|done]).
Qed.



Lemma contains_refl_app (u post : string) : contains (u +:+ post) u.
Proof. exists EmptyString, post. reflexivity. Qed.

Lemma contains_pad m w (u : string) : contains (pad m w u) u.
Proof.
  unfold pad. destruct m.
  - apply contains_refl_app.
  - exists (spaces (w - String.length u)), EmptyString.
    f_equal. clear. induction u as [|x u IH]; [done|by rewrite app_cons, <- IH].
Qed.

Lemma contains_trans (t u v : string) :
  contains t u -> contains u v -> contains t v.
Proof.
  intros (a & b & ->) (c & d & ->). exists (a +:+ c), (d +:+ b).
  by rewrite !app_assoc_s.
Qed.

(** X9.  When the platform answers [NULL] to a request with a count above
    [0], the run writes one failure message, exits right after it, and
    writes nothing of the two kinds otherwise; the status is 1 for every
    macro but the [REALLOC] with [MALLOCDEBUG]; the message holds the name of
    the macro, the name of the handle, the text and the value of the count
    and the name of the type. *)
Theorem failure_exits_with_message b o name len_s len s :
  no_percent name -> no_percent len_s -> no_percent (type_name T) ->
  (o = RESIZE -> declared s name) ->
  0 < len -> (request T P o name len s).1 = NULL ->
  exists s' text,
    perform T P b o name len_s len s = Exited (exit_status b o) s' /\
    (b = Silent \/ o <> RESIZE -> exit_status b o = 1) /\
    filter (fun e => Is_true (is_failure e) \/ Is_true (is_exit e))
           (added s (perform T P b o name len_s len s))
    = [EvPrintf FailureLine text; EvExit (exit_status b o)] /\
    contains text (macro_name o) /\ contains text name /\
    contains text len_s /\ contains text (dec len) /\
    contains text (type_name T).
Proof.
  intros Hn Hl Ht Hd Hlen Hnull.
  destruct (failure_report T P b o name len_s len s) as (Hrun & Hadd & _);
    try done.
  exists (after_failure T P b o name len_s len s),
         (failure_message T o name len_s len).
  split; [done|]. split; [by destruct b, o; intros [|]|]. split.
  - rewrite Hadd, filter_app. unfold trace_events.
    destruct b, o; try destruct (threshold_met _ _ _); reflexivity.
  - destruct (failure_message_contains T o name len_s len) as (? & ? & ?).
    repeat split; try done; unfold failure_message.
    + rewrite app_assoc_s. apply contains_refl_app.
    + do 2 apply contains_app_r. apply contains_mid.
Qed.

Lemma zero_loop_no_exit fuel name i len z s c s' :
  zero_loop fuel name i len z s <> Exited c s'.
Proof.
  revert i s. induction fuel as [|fuel IH]; intros i s; simpl;
    destruct (i <? len); try done.
  unfold bind. destruct (store_elem name i z s) eqn:Hst; try done.
  unfold store_elem in Hst. repeat case_match; discriminate.
Qed.

(** X8.  An allocating operation exits if and only if the platform answers
    [NULL] to a request with a count above [0]. *)
Theorem exits_iff_request_fails b o name len_s len s :
  no_percent name -> no_percent len_s -> no_percent (type_name T) ->
  (o = RESIZE -> declared s name) ->
  (exists c s', perform T P b o name len_s len s = Exited c s')
  <-> (request T P o name len s).1 = NULL /\ 0 < len.
Proof.
  intros Hn Hl Ht Hd.
  destruct (fails T P o name len s) eqn:Hf.
  - rewrite perform_failure by done. unfold fails in Hf.
    apply andb_true_iff in Hf as [Hnull Hpos]. split; [|eauto].
    intros _. split; [by destruct (request _ _ _ _ _ _).1|lia].
  - rewrite perform_success by auto. split.
    + intros (c & s' & Hrun). exfalso.
      destruct o; try discriminate. by apply zero_loop_no_exit in Hrun.
    + intros [Hnull Hpos]. unfold fails in Hf. rewrite Hnull in Hf.
      simpl in Hf. lia.
Qed.

(** X12.  With [MY_MALLOC_THRESH] as the header defines it, and a count
    [len >= 0] whose byte size fits [size_t], an allocating operation with
    [MALLOCDEBUG] writes exactly the trace line of the request when [len] is
    above [0] and no trace line when [len] is [0]. *)
Theorem default_threshold_traces_every_byte o name len_s len s :
  no_percent (type_name T) -> (o = RESIZE -> declared s name) ->
  0 <= len -> len * Z.pos (sizeof T) < 2 ^ Z.pos (size_bits P) ->
  filter (fun e => Is_true (is_trace e))
         (added s (perform T P Tracing o name len_s len s))
  = if len >? 0 then [EvPrintf TraceLine (trace_line T o name len_s len)]
    else [].
Proof.
  intros Ht Hd Hlen Hfit.
  destruct (added_perform T P Tracing o name len_s len s) as (post & -> & Hpost);
    [auto|auto|].
  rewrite filter_app.
  assert (filter (fun e => Is_true (is_trace e))
            (request_event T P o name len s
             :: EvAssign name (request T P o name len s).1 :: post) = [])
    as -> by (destruct Hpost as [->|(text & ->)]; by destruct o).
  rewrite app_nil_r. unfold trace_events, threshold_met.
  rewrite size_mul_small, to_size_t_THRESH by done.
  destruct (Z.gtb_spec len 0) as [Hpos|Hzero].
  - replace (len * Z.pos (sizeof T) >=? 1) with true by nia. reflexivity.
  - assert (len = 0) as -> by lia. reflexivity.
Qed.

Lemma label_names o (rest : string) :
  contains (label o +:+ rest) (macro_name o).
Proof.
  destruct o; [exists EmptyString, ("(  " +:+ rest)
              |exists EmptyString, ("(  " +:+ rest)
              |exists EmptyString, ("( " +:+ rest)]; reflexivity.
Qed.

(** X13.  Every trace line of an allocating operation holds the name of the
    macro, the name of the handle, the text and the value of the count and
    the name of the type. *)
Theorem trace_line_names_the_request o name len_s len s text :
  no_percent (type_name T) -> (o = RESIZE -> declared s name) ->
  EvPrintf TraceLine text ∈ added s (perform T P Tracing o name len_s len s) ->
  contains text (macro_name o) /\ contains text name /\
  contains text len_s /\ contains text (dec len) /\
  contains text (type_name T).
Proof.
  intros Ht Hd.
  destruct (added_perform T P Tracing o name len_s len s) as (post & -> & Hpost);
    [auto|auto|].
  rewrite elem_of_app. intros [Hin|Hin].
  - unfold trace_events in Hin. destruct (threshold_met _ _ _);
      [|by apply elem_of_nil in Hin].
    apply list_elem_of_singleton in Hin. injection Hin as ->.
    unfold trace_line, trace_body. rewrite !app_assoc_s.
    repeat split.
    + apply label_names.
    + apply contains_app_r.
      eapply contains_trans; [apply contains_refl_app|apply contains_pad].
    + do 3 apply contains_app_r.
      eapply contains_trans; [apply contains_refl_app|apply contains_pad].
    + do 5 apply contains_app_r.
      eapply contains_trans; [apply contains_refl_app|apply contains_pad].
    + do 7 apply contains_app_r. apply contains_refl_app.
  - exfalso. destruct Hpost as [->|(t & ->)]; destruct o; set_unfold;
      repeat (destruct Hin as [Hin|Hin]); try done; simplify_eq.
Qed.


(** X10.  Without [MALLOCDEBUG] no trace line is ever written, by the
    allocating operations or by RELEASE, and the only thing an allocating
    operation writes is the failure message of a request that fails. *)
Theorem silent_prints_only_on_failure o name len_s len s :
  no_percent name -> no_percent len_s -> no_percent (type_name T) ->
  (o = RESIZE -> declared s name) ->
  count is_trace (added s (perform T P Silent o name len_s len s)) = 0%nat /\
  filter (fun e => Is_true (is_failure e))
         (added s (perform T P Silent o name len_s len s))
  = (if fails T P o name len s
     then [EvPrintf FailureLine (failure_message T o name len_s len)]
     else []) /\
  count is_trace (added s (RELEASE P Silent name s)) = 0%nat.
Proof.
  intros Hn Hl Ht Hd. split; [|split].
  - destruct (added_perform T P Silent o name len_s len s) as (post & -> & Hpost);
      [discriminate|auto|].
    destruct Hpost as [->|(text & ->)]; by destruct o.
  - destruct (fails T P o name len s) eqn:Hf.
    + rewrite perform_failure by done.
      unfold added, after_failure. cbn [state_of log].
      rewrite after_request_log, <- !(assoc_L (++)), drop_app_length.
      by destruct o.
    + rewrite added_success by (done || discriminate). by destruct o.
  - destruct (vars s !! name) as [p|] eqn:Hv.
    + rewrite (release_run P Silent name p s Hv).
      unfold added. cbn [state_of after_release log].
      rewrite drop_app_length. by destruct p.
    + unfold RELEASE, Plain.FREE, bind, read, added. rewrite Hv. simpl.
      by rewrite drop_all.
Qed.

Lemma map_log_ext {A} f g (r : result V A) :
  (forall k, f k = g k) -> map_log f r = map_log g r.
Proof. intros H. destruct r; simpl; by rewrite ?H. Qed.

Lemma map_log_compose {A} f g (r : result V A) :
  map_log f (map_log g r) = map_log (fun k => f (g k)) r.
Proof. by destruct r. Qed.

Lemma store_elem_relog name i (z : V) (h : heap_of V) v l l' :
  store_elem name i z (State h v l)
  = map_log (fun _ => l) (store_elem name i z (State h v l')).
Proof. unfold store_elem. simpl. by repeat case_match. Qed.

Lemma zero_loop_relog fuel name i len (z : V) (h : heap_of V) v l l' :
  zero_loop fuel name i len z (State h v l)
  = map_log (fun _ => l) (zero_loop fuel name i len z (State h v l')).
Proof.
  revert i h v l'. induction fuel as [|fuel IH]; intros i h v l'; simpl;
    destruct (i <? len); try done.
  unfold bind. rewrite (store_elem_relog name i z h v l l').
  destruct (store_elem name i z (State h v l')) as [[] [h1 v1 l1]| | |];
    simpl; try done.
Qed.

(** The macros never look at the events so far. *)
Lemma plain_relog o name len_s len (h : heap_of V) v l :
  perform T P Silent o name len_s len (State h v l)
  = map_log (fun k => l ++ k)
      (perform T P Silent o name len_s len (State h v [])).
Proof.
  destruct o;
    unfold perform, Plain.MALLOC, Plain.CALLOC, Plain.REALLOC;
    unfold bind, printf, malloc, calloc, realloc, assign, read, exit, ret,
      emit.
  all: repeat match goal with
       | |- context [format Lit ?f ?a] =>
           let r := fresh "r" in generalize (format Lit f a); intros r
       end.
  all: simpl.
  all: repeat (case_match; simpl in *; simplify_eq).
  all: rewrite <- ?(assoc_L (++)); simpl; try done.
  all: try (by rewrite app_nil_r).
  all: try (by rewrite <- !(assoc_L (++))).
  all: match goal with
       | |- zero_loop ?f ?n ?i ?len ?z (State ?h1 ?v1 ?l1)
            = map_log _ (zero_loop _ _ _ _ _ (State _ _ ?l2)) =>
           rewrite (zero_loop_relog f n i len z h1 v1 l1 l2),
             (zero_loop_relog f n i len z h1 v1 l2 l2), !map_log_compose
       end.
  all: done.
Qed.

Lemma untraced_app l k : untraced (l ++ k) = untraced l ++ untraced k.
Proof. apply filter_app. Qed.

Lemma untraced_trace_events o name len_s len :
  untraced (trace_events T P Tracing o name len_s len) = [].
Proof. unfold trace_events. by destruct (threshold_met _ _ _). Qed.

(** With [MALLOCDEBUG] a macro is the trace line, if any, and then the macro
    without [MALLOCDEBUG]; [REALLOC] only as long as the request does not
    fail, for the status it exits with. *)
Lemma tracing_unfold o name len_s len s :
  (threshold_met T P len = true -> no_percent (type_name T)) ->
  (o = RESIZE -> fails T P o name len s = false) ->
  perform T P Tracing o name len_s len s
  = perform T P Silent o name len_s len
      (State (heap s) (vars s)
             (log s ++ trace_events T P Tracing o name len_s len)).
Proof.
  intros Ht Hf. destruct s as [h v l]. unfold trace_events.
  destruct o; open_macro; cbn [heap vars log] in *.
  all: destruct (_ >=? _) eqn:Hth;
    [rewrite printf_trace_eq by auto|unfold ret; rewrite app_nil_r];
    unfold emit; cbn [heap vars log]; try reflexivity.
  all: specialize (Hf eq_refl); unfold old_handle in Hf; cbn [vars] in Hf.
  all: unfold read, realloc, assign; cbn [heap vars log].
  all: destruct (v !! name) as [q|]; simpl in *; try reflexivity.
  all: destruct (plat_realloc _ _ _ _) as [p h']; simpl in *.
  all: by rewrite Hf.
Qed.

(** X11.  The two build modes differ in the trace lines only: with the trace
    lines taken out of the events, a run with [MALLOCDEBUG] is the run
    without, in outcome, heap, variables and events.  For [REALLOC] this
    holds as long as the request does not fail (the two variants exit with
    different statuses); for the other macros always. *)
Theorem tracing_only_adds_trace_lines o name len_s len s :
  no_percent (type_name T) ->
  (o = RESIZE -> fails T P o name len s = false) ->
  map_log untraced (perform T P Tracing o name len_s len s)
  = map_log untraced (perform T P Silent o name len_s len s) /\
  map_log untraced (RELEASE P Tracing name s)
  = map_log untraced (RELEASE P Silent name s).
Proof.
  intros Ht Hf. split.
  - rewrite tracing_unfold by auto. destruct s as [h v l]. cbn [heap vars log].
    rewrite (plain_relog o name len_s len h v (l ++ _)),
      (plain_relog o name len_s len h v l), !map_log_compose.
    apply map_log_ext. intros k.
    by rewrite !untraced_app, untraced_trace_events, app_nil_r.
  - destruct (vars s !! name) as [p|] eqn:Hv.
    + rewrite !(release_run P _ name p s Hv). unfold after_release. simpl.
      do 2 f_equal. rewrite !untraced_app. by destruct p.
    + unfold RELEASE, Debug.FREE, Plain.FREE, bind.
      rewrite printf_release_eq. unfold read, emit. simpl. rewrite Hv.
      simpl. f_equal. f_equal. rewrite untraced_app. simpl.
      apply app_nil_r.
Qed.

End Further.

(** ** The further theorems at concrete inputs *)



(** X2 at [MALLOC(y, 3, int)] with [MALLOCDEBUG]. *)
Lemma allocate_owns_witness :
  conforming int lp64_int /\ 0 <= 3 /\
  3 * Z.pos (sizeof int) < 2 ^ Z.pos (size_bits lp64_int) /\
  no_percent (type_name int) /\
  ((forall s',
       perform int lp64_int Tracing ALLOCATE "y" "3" 3 start = Normal tt s' ->
       owns s' "y" 3 /\
       heap s' = (plat_malloc lp64_int (3 * Z.pos (sizeof int)) (heap start)).2)
   /\
   (fails int lp64_int ALLOCATE "y" 3 start = false ->
    exists s',
      perform int lp64_int Tracing ALLOCATE "y" "3" 3 start = Normal tt s')).
Proof.
  assert (H1 : conforming int lp64_int) by apply (arena_conforming int).
  assert (H2 : 0 <= 3) by lia.
  assert (H3 : 3 * Z.pos (sizeof int) < 2 ^ Z.pos (size_bits lp64_int))
    by reflexivity.
  assert (H4 : no_percent (type_name int)) by reflexivity.
  exact (conj H1 (conj H2 (conj H3 (conj H4
    (allocate_owns int lp64_int Tracing "y" "3" 3 start H1 H2 H3 H4))))).
Defined.


(** X4 at [FREE(y)] with [MALLOCDEBUG] and [y] holding [7, 8, 9]. *)
Lemma release_frees_what_the_handle_holds_witness :
  handle_is with_y "y" (Some 1%positive) /\
  exists s',
    RELEASE lp64_int Tracing "y" with_y = Normal tt s' /\
    handle_is s' "y" NULL /\
    heap s' = plat_free lp64_int 1%positive (heap with_y) /\
    exists pre,
      added with_y (RELEASE lp64_int Tracing "y" with_y)
      = pre ++ [EvFree 1%positive; EvAssign "y" NULL] /\
      count is_free pre = 0%nat /\
      count is_trace pre = 1%nat.
Proof.
  assert (H1 : handle_is with_y "y" (Some 1%positive)) by reflexivity.
  exact (conj H1
    (release_frees_what_the_handle_holds lp64_int Tracing "y" 1%positive
       with_y H1)).
Defined.


(** X6 at [REALLOC(y, 5, int)] and [FREE(y)], for the variable [x]. *)
Lemma other_handles_untouched_witness :
  "x" <> "y" /\ hygienic ZERO_ALLOCATE "y" "5" /\
  (exists s',
      state_of (perform int lp64_int Tracing ZERO_ALLOCATE "y" "5" 5 with_y)
      = Some s' /\
      vars s' !! "x" = vars with_y !! "x") /\
  (exists s',
      state_of (RELEASE lp64_int Tracing "y" with_y) = Some s' /\
      vars s' !! "x" = vars with_y !! "x").
Proof.
  assert (H1 : "x" <> "y") by discriminate.
  assert (H2 : hygienic ZERO_ALLOCATE "y" "5")
    by (intros _; split; reflexivity).
  exact (conj H1 (conj H2
    (other_handles_untouched int lp64_int Tracing ZERO_ALLOCATE "y" "5" 5
       with_y "x" H1 H2))).
Defined.

(** X8 at [REALLOC(y, 5, int)] with [MALLOCDEBUG] and no memory left. *)
Lemma exits_iff_request_fails_witness :
  no_percent "y" /\ no_percent "5" /\ no_percent (type_name int) /\
  (RESIZE = RESIZE -> declared with_y "y") /\
  ((exists c s',
       perform int lp64_none Tracing RESIZE "y" "5" 5 with_y = Exited c s')
   <-> (request int lp64_none RESIZE "y" 5 with_y).1 = NULL /\ 0 < 5).
Proof.
  assert (H1 : no_percent "y") by reflexivity.
  assert (H2 : no_percent "5") by reflexivity.
  assert (H3 : no_percent (type_name int)) by reflexivity.
  assert (H4 : RESIZE = RESIZE -> declared with_y "y")
    by (intros _; exists (Some 1%positive); reflexivity).
  exact (conj H1 (conj H2 (conj H3 (conj H4
    (exits_iff_request_fails int lp64_none Tracing RESIZE "y" "5" 5 with_y
       H1 H2 H3 H4))))).
Defined.

(** X9 at [CALLOC(x, n, int)] with [n] equal to [5] and no memory left. *)
Lemma failure_exits_with_message_witness :
  no_percent "x" /\ no_percent "n" /\ no_percent (type_name int) /\
  (ZERO_ALLOCATE = RESIZE -> declared start "x") /\ 0 < 5 /\
  (request int lp64_none ZERO_ALLOCATE "x" 5 start).1 = NULL /\
  exists s' text,
    perform int lp64_none Tracing ZERO_ALLOCATE "x" "n" 5 start
    = Exited (exit_status Tracing ZERO_ALLOCATE) s' /\
    (Tracing = Silent \/ ZERO_ALLOCATE <> RESIZE ->
     exit_status Tracing ZERO_ALLOCATE = 1) /\
    filter (fun e => Is_true (is_failure e) \/ Is_true (is_exit e))
           (added start
              (perform int lp64_none Tracing ZERO_ALLOCATE "x" "n" 5 start))
    = [EvPrintf FailureLine text; EvExit (exit_status Tracing ZERO_ALLOCATE)] /\
    contains text (macro_name ZERO_ALLOCATE) /\ contains text "x" /\
    contains text "n" /\ contains text (dec 5) /\
    contains text (type_name int).
Proof.
  assert (H1 : no_percent "x") by reflexivity.
  assert (H2 : no_percent "n") by reflexivity.
  assert (H3 : no_percent (type_name int)) by reflexivity.
  assert (H4 : ZERO_ALLOCATE = RESIZE -> declared start "x") by discriminate.
  assert (H5 : 0 < 5) by lia.
  assert (H6 : (request int lp64_none ZERO_ALLOCATE "x" 5 start).1 = NULL)
    by reflexivity.
  exact (conj H1 (conj H2 (conj H3 (conj H4 (conj H5 (conj H6
    (failure_exits_with_message int lp64_none Tracing ZERO_ALLOCATE "x" "n" 5
       start H1 H2 H3 H4 H5 H6))))))).
Defined.

(** X10 at [MALLOC(x, n, int)] with [n] equal to [5] and no memory left. *)
Lemma silent_prints_only_on_failure_witness :
  no_percent "x" /\ no_percent "n" /\ no_percent (type_name int) /\
  (ALLOCATE = RESIZE -> declared start "x") /\
  (count is_trace
     (added start (perform int lp64_none Silent ALLOCATE "x" "n" 5 start))
   = 0%nat /\
   filter (fun e => Is_true (is_failure e))
          (added start (perform int lp64_none Silent ALLOCATE "x" "n" 5 start))
   = (if fails int lp64_none ALLOCATE "x" 5 start
      then [EvPrintf FailureLine (failure_message int ALLOCATE "x" "n" 5)]
      else []) /\
   count is_trace (added start (RELEASE lp64_none Silent "x" start)) = 0%nat).
Proof.
  assert (H1 : no_percent "x") by reflexivity.
  assert (H2 : no_percent "n") by reflexivity.
  assert (H3 : no_percent (type_name int)) by reflexivity.
  assert (H4 : ALLOCATE = RESIZE -> declared start "x") by discriminate.
  exact (conj H1 (conj H2 (conj H3 (conj H4
    (silent_prints_only_on_failure int lp64_none ALLOCATE "x" "n" 5 start
       H1 H2 H3 H4))))).
Defined.

(** X11 at [REALLOC(y, 5, int)] and [FREE(y)] with [y] holding [7, 8, 9]. *)
Lemma tracing_only_adds_trace_lines_witness :
  no_percent (type_name int) /\
  (RESIZE = RESIZE -> fails int lp64_int RESIZE "y" 5 with_y = false) /\
  (map_log untraced (perform int lp64_int Tracing RESIZE "y" "5" 5 with_y)
   = map_log untraced (perform int lp64_int Silent RESIZE "y" "5" 5 with_y) /\
   map_log untraced (RELEASE lp64_int Tracing "y" with_y)
   = map_log untraced (RELEASE lp64_int Silent "y" with_y)).
Proof.
  assert (H1 : no_percent (type_name int)) by reflexivity.
  assert (H2 : RESIZE = RESIZE -> fails int lp64_int RESIZE "y" 5 with_y = false)
    by (intros _; reflexivity).
  exact (conj H1 (conj H2
    (tracing_only_adds_trace_lines int lp64_int RESIZE "y" "5" 5 with_y
       H1 H2))).
Defined.

(** X12 at [MALLOC(a, 10, int)]. *)
Lemma default_threshold_traces_every_byte_witness :
  no_percent (type_name int) /\ (ALLOCATE = RESIZE -> declared start "a") /\
  0 <= 10 /\ 10 * Z.pos (sizeof int) < 2 ^ Z.pos (size_bits lp64_int) /\
  filter (fun e => Is_true (is_trace e))
         (added start (perform int lp64_int Tracing ALLOCATE "a" "10" 10 start))
  = (if 10 >? 0 then [EvPrintf TraceLine (trace_line int ALLOCATE "a" "10" 10)]
     else []).
Proof.
  assert (H1 : no_percent (type_name int)) by reflexivity.
  assert (H2 : ALLOCATE = RESIZE -> declared start "a") by discriminate.
  assert (H3 : 0 <= 10) by lia.
  assert (H4 : 10 * Z.pos (sizeof int) < 2 ^ Z.pos (size_bits lp64_int))
    by reflexivity.
  exact (conj H1 (conj H2 (conj H3 (conj H4
    (default_threshold_traces_every_byte int lp64_int ALLOCATE "a" "10" 10
       start H1 H2 H3 H4))))).
Defined.

(** X13 at the trace line of [MALLOC(a, 10, int)]. *)
Lemma trace_line_names_the_request_witness :
  no_percent (type_name int) /\ (ALLOCATE = RESIZE -> declared start "a") /\
  EvPrintf TraceLine (trace_line int ALLOCATE "a" "10" 10)
    ∈ added start (perform int lp64_int Tracing ALLOCATE "a" "10" 10 start) /\
  (contains (trace_line int ALLOCATE "a" "10" 10) (macro_name ALLOCATE) /\
   contains (trace_line int ALLOCATE "a" "10" 10) "a" /\
   contains (trace_line int ALLOCATE "a" "10" 10) "10" /\
   contains (trace_line int ALLOCATE "a" "10" 10) (dec 10) /\
   contains (trace_line int ALLOCATE "a" "10" 10) (type_name int)).
Proof.
  assert (H1 : no_percent (type_name int)) by reflexivity.
  assert (H2 : ALLOCATE = RESIZE -> declared start "a") by discriminate.
  assert (H3 : EvPrintf TraceLine (trace_line int ALLOCATE "a" "10" 10)
                 ∈ added start
                     (perform int lp64_int Tracing ALLOCATE "a" "10" 10 start)).
  { replace (added start
               (perform int lp64_int Tracing ALLOCATE "a" "10" 10 start))
      with [EvPrintf TraceLine (trace_line int ALLOCATE "a" "10" 10);
            EvMalloc 40; EvAssign "a" (Some 1%positive)]
      by (vm_compute; reflexivity).
    apply list_elem_of_here. }
  exact (conj H1 (conj H2 (conj H3
    (trace_line_names_the_request int lp64_int ALLOCATE "a" "10" 10 start _
       H1 H2 H3)))).
Defined.
